(** * osc-data-processing: the index builder and the index query engine

    A shallow embedding of [create_index.py] (header and row statistics,
    sequential and pooled table construction) and of [index.py] (the
    [COCOIndex] queries and filters), followed by the properties of the
    specification that concern them.

    Layout: Python primitives, the numpy interface, [create_index.py],
    [index.py], and then the lemmas and theorems. *)

From Stdlib Require Import ZArith QArith List Ascii String Decimal DecimalString DecimalZ.
From Stdlib Require Import Qabs Qminmax Qcanon Permutation Sorted Lia.
From stdpp Require Import base option list gmap strings sorting.
Close Scope Q_scope.
Open Scope Z_scope.

(* ================================================================== *)
(** * Python primitives *)
(* ================================================================== *)

Module Py.

(** The exceptions the modelled code can raise. *)
Inductive exn : Set :=
  | ValueError | IndexError | KeyError | AttributeError | TypeError.

(** A Python computation: a value, or a raised exception. *)
Inductive result (A : Type) : Type :=
  | Ok (a : A)
  | Err (e : exn).
Arguments Ok {A} a.
Arguments Err {A} e.

#[global] Instance result_ret : MRet result := @Ok.
#[global] Instance result_bind : MBind result := λ A B f m,
  match m with Ok a => f a | Err e => Err e end.
#[global] Instance result_fmap : FMap result := λ A B f m,
  match m with Ok a => Ok (f a) | Err e => Err e end.

(** Evaluating the elements of a list display or of a generator left to
    right: the first exception wins. *)
Fixpoint traverse {A B} (f : A → result B) (l : list A) : result (list B) :=
  match l with
  | [] => Ok []
  | x :: xs => y ← f x; ys ← traverse f xs; Ok (y :: ys)
  end.

(** ** Strings *)

(** [sep.join(parts)] *)
Definition join (sep : string) (parts : list string) : string :=
  String.concat sep parts.

(** [s.split(sep)] for a one-character separator. *)
Fixpoint split (sep : ascii) (s : string) : list string :=
  match s with
  | EmptyString => [EmptyString]
  | String c s' =>
      if Ascii.eqb c sep then EmptyString :: split sep s'
      else match split sep s' with
           | [] => [String c EmptyString]
           | w :: ws => String c w :: ws
           end
  end.

(** [p in s] on strings: [p] occurs in [s] as a substring. *)
Fixpoint contains (p s : string) : bool :=
  String.prefix p s ||
  match s with
  | EmptyString => false
  | String _ s' => contains p s'
  end.

(** [xs[i]] on a list. *)
Definition getitem {A} (xs : list A) (i : nat) : result A :=
  match xs !! i with Some x => Ok x | None => Err IndexError end.

(** [str(n)] for an [int]: decimal digits, ["-"] in front of a negative
    number. *)
Definition str_int (n : Z) : string := NilZero.string_of_int (Z.to_int n).

(** ASCII whitespace, as [int()] strips it. *)
Definition is_space (c : ascii) : bool :=
  let n := nat_of_ascii c in
  ((9 <=? n)%nat && (n <=? 13)%nat) || ((28 <=? n)%nat && (n <=? 32)%nat).

Fixpoint lstrip (s : string) : string :=
  match s with
  | EmptyString => EmptyString
  | String c s' => if is_space c then lstrip s' else s
  end.

Fixpoint rstrip (s : string) : string :=
  match s with
  | EmptyString => EmptyString
  | String c s' =>
      match rstrip s' with
      | EmptyString => if is_space c then EmptyString else String c EmptyString
      | r => String c r
      end
  end.

(** [int(s)] on a string: surrounding whitespace is dropped, then an
    optional sign and at least one decimal digit are read; anything else is
    a [ValueError].  (Digit grouping with ["_"] and digits outside ASCII are
    left out: [get_classes] only passes pieces cut at ["_"].) *)
Definition int_str (s : string) : result Z :=
  let t := rstrip (lstrip s) in
  let parsed :=
    match t with
    | EmptyString => None
    | String c t' =>
        if Ascii.eqb c "+" then option_map Pos (NilZero.uint_of_string t')
        else NilZero.int_of_string t
    end in
  match parsed with
  | Some d => Ok (Z.of_int d)
  | None => Err ValueError
  end.

(** ** [max] and [min] *)

(** The running maximum of [max(values)], from the item [cur] on: it is
    replaced only by a strictly greater item, so the first maximal item is
    kept.  [lt a b] is the comparison [a < b] of the items, and [b > a] is
    the same comparison. *)
Definition scan_max {V} (lt : V → V → bool) (cur : V) (rest : list V) : V :=
  foldl (λ cur x, if lt cur x then x else cur) cur rest.

(** The running minimum: replaced only by a strictly smaller item. *)
Definition scan_min {V} (lt : V → V → bool) (cur : V) (rest : list V) : V :=
  foldl (λ cur x, if lt x cur then x else cur) cur rest.

(** [max(values)] and [min(values)]: an empty argument is a [ValueError]. *)
Definition py_max {V} (lt : V → V → bool) (values : list V) : result V :=
  match values with
  | [] => Err ValueError
  | v :: vs => Ok (scan_max lt v vs)
  end.

Definition py_min {V} (lt : V → V → bool) (values : list V) : result V :=
  match values with
  | [] => Err ValueError
  | v :: vs => Ok (scan_min lt v vs)
  end.

(** [max(items, key=key)] and [min(items, key=key)]: the key of every item
    is computed once, in order, and the items are compared by their keys. *)
Definition keyed {A V} (key : A → result V) (items : list A)
    : result (list (A * V)) :=
  traverse (λ x, k ← key x; Ok (x, k)) items.

Definition by_key {A V} (lt : V → V → bool) (a b : A * V) : bool := lt a.2 b.2.

Definition py_max_key {A V} (lt : V → V → bool) (key : A → result V)
    (items : list A) : result A :=
  fst <$> (keyed key items ≫= py_max (by_key lt)).

Definition py_min_key {A V} (lt : V → V → bool) (key : A → result V)
    (items : list A) : result A :=
  fst <$> (keyed key items ≫= py_min (by_key lt)).

End Py.
Export Py.

Example split_ex : split "_" "NumInstances_12" = ["NumInstances"; "12"]%string.
Proof. reflexivity. Qed.
Example int_ex : (int_str " +42 ", int_str "-7", int_str "1.1", int_str "")
  = (Ok 42, Ok (-7), Err ValueError, Err ValueError).
Proof. reflexivity. Qed.

(* ================================================================== *)
(** * The numpy interface *)
(* ================================================================== *)

(** numpy is a library the program calls.  Its scalars, their comparison
    and printing, and the reductions of a one-dimensional array are taken
    as an interface; the numbers read from the annotation file (JSON
    numerals) are rationals.  [np_min] and [np_max] are only consulted on a
    non-empty array: on an empty one numpy raises, which [ndarray_min] and
    [ndarray_max] below write out. *)
Class NumPy := {
  num : Type;
  num_lt : num → num → bool;
  num_le : num → num → bool;
  num_str : num → string;
  np_sum : list Q → num;
  np_min : list Q → num;
  np_mean : list Q → num;
  np_max : list Q → num;
  np_std : list Q → num;
}.

(** The comparison of numpy scalars is a strict weak order and [<=] is its
    complement: what holds of numbers that are not NaN. *)
Class NumPyOrder `{NumPy} := {
  num_lt_irrefl : ∀ a, num_lt a a = false;
  num_lt_trans : ∀ a b c, num_lt a b = true → num_lt b c = true → num_lt a c = true;
  num_lt_cotrans : ∀ a b c, num_lt a b = true → num_lt a c = true ∨ num_lt c b = true;
  num_le_not_lt : ∀ a b, num_le a b = negb (num_lt b a);
}.

Section ndarray.
Context `{NumPy}.

(** [a.min()] and [a.max()]: a zero-size array has no minimum. *)
Definition ndarray_min (a : list Q) : result num :=
  match a with [] => Err ValueError | _ => Ok (np_min a) end.
Definition ndarray_max (a : list Q) : result num :=
  match a with [] => Err ValueError | _ => Ok (np_max a) end.

(** [a[:, k]] on the array built from a list of boxes: the array of an
    empty list has one dimension only, and indexing it twice is an
    [IndexError]. *)
Definition ndarray_column {B} (coord : B → Q) (a : list B) : result (list Q) :=
  match a with [] => Err IndexError | _ => Ok (coord <$> a) end.
End ndarray.

(* ================================================================== *)
(** * create_index.py *)
(* ================================================================== *)

Module CreateIndex.

(** A category of the annotation file: [{'id': ..., 'name': ...}]. *)
Record category := { id : Z; name : string }.

(** An instance annotation: [category_id], [area], [bbox] = [x, y, w, h]
    and [iscrowd]. *)
Record annotation := {
  category_id : Z;
  area : Q;
  bbox : Q * Q * Q * Q;
  iscrowd : bool;
}.

Definition bbox_x (b : Q * Q * Q * Q) : Q := b.1.1.1.
Definition bbox_y (b : Q * Q * Q * Q) : Q := b.1.1.2.

(** [len(xs)] as a Python [int]. *)
Definition len {A} (xs : list A) : Z := Z.of_nat (length xs).

(** ** create_header_row *)

Definition fixed_columns : list string := [
  "ImageID"; "NumInstances"; "NumCategories";
  "TotalArea"; "MinArea"; "MeanArea"; "MaxArea"; "StdevArea";
  "MeanX"; "MeanY"; "StdevX"; "StdevY";
  "Highest_NumInstances"; "Highest_TotalArea"; "Highest_MinArea";
  "Highest_MeanArea"; "Highest_MaxArea"; "Highest_StdevArea";
  "Lowest_NumInstances"; "Lowest_TotalArea"; "Lowest_MinArea";
  "Lowest_MeanArea"; "Lowest_MaxArea"; "Lowest_StdevArea";
  "CategoryOf_Highest_NumInstances"; "CategoryOf_Highest_TotalArea";
  "CategoryOf_Highest_MinArea"; "CategoryOf_Highest_MeanArea";
  "CategoryOf_Highest_MaxArea"; "CategoryOf_Highest_StdevArea";
  "CategoryOf_Lowest_NumInstances"; "CategoryOf_Lowest_TotalArea";
  "CategoryOf_Lowest_MinArea"; "CategoryOf_Lowest_MeanArea";
  "CategoryOf_Lowest_MaxArea"; "CategoryOf_Lowest_StdevArea"
]%string.

(** The ten names [columns.extend] adds for one category. *)
Definition category_columns (category_id : Z) : list string :=
  let c := str_int category_id in [
    "NumInstances_" +:+ c; "TotalArea_" +:+ c; "MinArea_" +:+ c;
    "MeanArea_" +:+ c; "MaxArea_" +:+ c; "StdevArea_" +:+ c;
    "MeanX_" +:+ c; "MeanY_" +:+ c; "StdevX_" +:+ c; "StdevY_" +:+ c
  ]%string.

(** The list [columns] of [create_header_row]. *)
Definition header_columns (category_ids : list Z) : list string :=
  foldl (λ columns category_id, columns ++ category_columns category_id)
        fixed_columns category_ids.

Definition create_header_row (category_ids : list Z) (sep : string) : string :=
  join sep (header_columns category_ids).

(** ** os.path.splitext *)

(** Index of the last occurrence of [c] in [s], [-1] if there is none
    ([s.rfind(c)]). *)
Fixpoint rfind_from (c : ascii) (s : string) (i : Z) (last : Z) : Z :=
  match s with
  | EmptyString => last
  | String d s' => rfind_from c s' (i + 1) (if Ascii.eqb d c then i else last)
  end.
Definition rfind (c : ascii) (s : string) : Z := rfind_from c s 0 (-1).

(** Is there a character other than ["."] at the positions [lo <= i < hi]? *)
Fixpoint has_non_dot (s : string) (i lo hi : Z) : bool :=
  match s with
  | EmptyString => false
  | String d s' =>
      ((lo <=? i) && (i <? hi) && negb (Ascii.eqb d ".")) || has_non_dot s' (i + 1) lo hi
  end.

(** [os.path.splitext(p)[0]]: [p] without its extension; the extension
    starts at the last dot of the last path component, leading dots of that
    component apart. *)
Definition splitext_root (p : string) : string :=
  let sepIndex := rfind "/" p in
  let dotIndex := rfind "." p in
  if (sepIndex <? dotIndex) && has_non_dot p 0 (sepIndex + 1) dotIndex
  then String.substring 0 (Z.to_nat dotIndex) p
  else p.

(** ** create_index_row *)

(** A Python dict built by a comprehension [{k: f(k) for k in keys}]: later
    keys overwrite earlier ones. *)
Definition dict_comprehension {V} (f : Z → V) (keys : list Z) : gmap Z V :=
  foldl (λ d k, <[k := f k]> d) ∅ keys.

(** [d[k]] on a plain dict. *)
Definition dict_getitem {V} (d : gmap Z V) (k : Z) : result V :=
  match d !! k with Some v => Ok v | None => Err KeyError end.

(** The loop that fills [annotations_by_cid = defaultdict(list)]:
    [annotations_by_cid[a['category_id']].append(a)].  Reading a
    [defaultdict(list)] at a missing key gives the empty list, which is the
    total lookup [!!!]. *)
Definition group_by_cid (annotations : list annotation) : gmap Z (list annotation) :=
  foldl (λ d a, <[category_id a := (d !!! category_id a) ++ [a]]> d) ∅ annotations.

Section row.
Context `{NumPy}.

(** One entry of the list [row]: a string, a Python [int], or a numpy
    scalar. *)
Inductive cell : Type :=
  | CStr (s : string)
  | CInt (n : Z)
  | CNum (v : num).

(** [str(x)] for an entry of [row]. *)
Definition str_cell (x : cell) : string :=
  match x with
  | CStr s => s
  | CInt n => str_int n
  | CNum v => num_str v
  end.

Section one_image.
Variable category_ids : list Z.
Variable filename : string.
Variable annotations : list annotation.

Definition areas : list Q := area <$> annotations.
Definition bboxes : list (Q * Q * Q * Q) := bbox <$> annotations.
Definition annotations_by_cid : gmap Z (list annotation) :=
  group_by_cid annotations.
Definition areas_by_cid : gmap Z (list Q) :=
  dict_comprehension (λ cid, area <$> (annotations_by_cid !!! cid)) category_ids.
Definition bboxes_by_cid : gmap Z (list (Q * Q * Q * Q)) :=
  dict_comprehension (λ cid, bbox <$> (annotations_by_cid !!! cid)) category_ids.

Definition nonempty_category_ids : list Z :=
  filter (λ cid, 0 < len (annotations_by_cid !!! cid)) category_ids.

(** The six per-category statistics the extrema range over. *)
Definition cat_len (cid : Z) : result Z := Ok (len (annotations_by_cid !!! cid)).
Definition cat_sum (cid : Z) : result num :=
  a ← dict_getitem areas_by_cid cid; Ok (np_sum a).
Definition cat_min (cid : Z) : result num :=
  a ← dict_getitem areas_by_cid cid; ndarray_min a.
Definition cat_mean (cid : Z) : result num :=
  a ← dict_getitem areas_by_cid cid; Ok (np_mean a).
Definition cat_max (cid : Z) : result num :=
  a ← dict_getitem areas_by_cid cid; ndarray_max a.
Definition cat_std (cid : Z) : result num :=
  a ← dict_getitem areas_by_cid cid; Ok (np_std a).

(** [max(f(cid) for cid in nonempty_category_ids)] and its [min]. *)
Definition highest {V} (lt : V → V → bool) (f : Z → result V) : result V :=
  vs ← traverse f nonempty_category_ids; py_max lt vs.
Definition lowest {V} (lt : V → V → bool) (f : Z → result V) : result V :=
  vs ← traverse f nonempty_category_ids; py_min lt vs.

(** [max(nonempty_category_ids, key=f)] and its [min]. *)
Definition category_of_highest {V} (lt : V → V → bool) (f : Z → result V) : result Z :=
  py_max_key lt f nonempty_category_ids.
Definition category_of_lowest {V} (lt : V → V → bool) (f : Z → result V) : result Z :=
  py_min_key lt f nonempty_category_ids.

(** The 36 entries of the list display [row = [...]], evaluated in
    order. *)
Definition fixed_cells : result (list cell) :=
  let image_id := CStr (splitext_root filename) in
  let num_instances := CInt (len annotations) in
  let num_categories := CInt (len nonempty_category_ids) in
  let total_area := CNum (np_sum areas) in
  min_area ← CNum <$> ndarray_min areas;
  let mean_area := CNum (np_mean areas) in
  max_area ← CNum <$> ndarray_max areas;
  let stdev_area := CNum (np_std areas) in
  mean_x ← (λ xs, CNum (np_mean xs)) <$> ndarray_column bbox_x bboxes;
  mean_y ← (λ ys, CNum (np_mean ys)) <$> ndarray_column bbox_y bboxes;
  stdev_x ← (λ xs, CNum (np_std xs)) <$> ndarray_column bbox_x bboxes;
  stdev_y ← (λ ys, CNum (np_std ys)) <$> ndarray_column bbox_y bboxes;
  h_num ← CInt <$> highest Z.ltb cat_len;
  h_total ← CNum <$> highest num_lt cat_sum;
  h_min ← CNum <$> highest num_lt cat_min;
  h_mean ← CNum <$> highest num_lt cat_mean;
  h_max ← CNum <$> highest num_lt cat_max;
  h_std ← CNum <$> highest num_lt cat_std;
  l_num ← CInt <$> lowest Z.ltb cat_len;
  l_total ← CNum <$> lowest num_lt cat_sum;
  l_min ← CNum <$> lowest num_lt cat_min;
  l_mean ← CNum <$> lowest num_lt cat_mean;
  l_max ← CNum <$> lowest num_lt cat_max;
  l_std ← CNum <$> lowest num_lt cat_std;
  ch_num ← CInt <$> category_of_highest Z.ltb cat_len;
  ch_total ← CInt <$> category_of_highest num_lt cat_sum;
  ch_min ← CInt <$> category_of_highest num_lt cat_min;
  ch_mean ← CInt <$> category_of_highest num_lt cat_mean;
  ch_max ← CInt <$> category_of_highest num_lt cat_max;
  ch_std ← CInt <$> category_of_highest num_lt cat_std;
  cl_num ← CInt <$> category_of_lowest Z.ltb cat_len;
  cl_total ← CInt <$> category_of_lowest num_lt cat_sum;
  cl_min ← CInt <$> category_of_lowest num_lt cat_min;
  cl_mean ← CInt <$> category_of_lowest num_lt cat_mean;
  cl_max ← CInt <$> category_of_lowest num_lt cat_max;
  cl_std ← CInt <$> category_of_lowest num_lt cat_std;
  Ok [image_id; num_instances; num_categories;
      total_area; min_area; mean_area; max_area; stdev_area;
      mean_x; mean_y; stdev_x; stdev_y;
      h_num; h_total; h_min; h_mean; h_max; h_std;
      l_num; l_total; l_min; l_mean; l_max; l_std;
      ch_num; ch_total; ch_min; ch_mean; ch_max; ch_std;
      cl_num; cl_total; cl_min; cl_mean; cl_max; cl_std].

(** [stat if len(category_annotations) > 0 else 0] *)
Definition if_nonempty {A} (category_annotations : list A)
    (stat : result num) : result cell :=
  if bool_decide (0 < len category_annotations) then CNum <$> stat
  else Ok (CInt 0).

(** The ten [row.append] of one round of the loop over [category_ids]. *)
Definition category_cells (cid : Z) : result (list cell) :=
  let category_annotations := annotations_by_cid !!! cid in
  category_areas ← dict_getitem areas_by_cid cid;
  category_bboxes ← dict_getitem bboxes_by_cid cid;
  let n := CInt (len category_annotations) in
  total ← if_nonempty category_annotations (Ok (np_sum category_areas));
  mn ← if_nonempty category_annotations (ndarray_min category_areas);
  mean ← if_nonempty category_annotations (Ok (np_mean category_areas));
  mx ← if_nonempty category_annotations (ndarray_max category_areas);
  std ← if_nonempty category_annotations (Ok (np_std category_areas));
  mean_x ← if_nonempty category_annotations
             (np_mean <$> ndarray_column bbox_x category_bboxes);
  mean_y ← if_nonempty category_annotations
             (np_mean <$> ndarray_column bbox_y category_bboxes);
  std_x ← if_nonempty category_annotations
             (np_std <$> ndarray_column bbox_x category_bboxes);
  std_y ← if_nonempty category_annotations
             (np_std <$> ndarray_column bbox_y category_bboxes);
  Ok [n; total; mn; mean; mx; std; mean_x; mean_y; std_x; std_y].

(** The loop [for cid in category_ids] appending to [row]. *)
Fixpoint append_categories (row : list cell) (cids : list Z) : result (list cell) :=
  match cids with
  | [] => Ok row
  | cid :: rest =>
      cells ← category_cells cid;
      append_categories (row ++ cells) rest
  end.

(** The list [row] when [create_index_row] reaches its [return]. *)
Definition index_row : result (list cell) :=
  row ← fixed_cells; append_categories row category_ids.

Definition create_index_row (sep : string) : result string :=
  row ← index_row; Ok (join sep (str_cell <$> row)).
End one_image.

(** The field of a row under a column name of the header built from the
    same category ids (the first column of that name). *)
Fixpoint index_of (x : string) (names : list string) : option nat :=
  match names with
  | [] => None
  | y :: ys => if String.eqb x y then Some 0%nat else S <$> index_of x ys
  end.

Definition field (category_ids : list Z) (row : list cell) (column : string)
    : option cell :=
  i ← index_of column (header_columns category_ids); row !! i.

(** ** create_index_sequentially *)

(** [sorted([c['id'] for c in categories])] *)
Definition sorted_ids (categories : list category) : list Z :=
  merge_sort Z.le (id <$> categories).

(** The output file is the list of the lines written to it, a line being
    one [fp.write(text)] followed by [fp.write('\n')].  A builder yields
    the file as it stands when the call ends, and how the call ended. *)
Definition file : Type := list string.

(** The loop [for row in rows: fp.write(row); fp.write('\n')] over the
    outcomes of the row computations: it stops at the first exception. *)
Fixpoint write_rows (fp : file) (rows : list (result string)) : file * result () :=
  match rows with
  | [] => (fp, Ok ())
  | Ok row :: rest => write_rows (fp ++ [row]) rest
  | Err e :: _ => (fp, Err e)
  end.

(** [annotations_by_filename.items()] is the list of the entries of the
    dict in insertion order.  The row of an image is computed when the
    loop reaches it, so a failing image leaves the earlier rows written. *)
Definition create_index_sequentially (categories : list category)
    (annotations_by_filename : list (string * list annotation)) (sep : string)
    : file * result () :=
  let category_ids := sorted_ids categories in
  let fp := [create_header_row category_ids sep] in
  write_rows fp
    ((λ item, create_index_row category_ids item.1 item.2 sep)
       <$> annotations_by_filename).

(** ** create_index_multiprocessing *)

Definition wrapped_create_index_row (args : list Z * string * list annotation * string)
    : result string :=
  let '(category_ids, filename, annotations, sep) := args in
  create_index_row category_ids filename annotations sep.

(** [multiprocessing.Pool]: the workers take the pending jobs in an order
    the program does not control.  [picks] is that order: at each step
    the job at position [pick mod (number pending)] of the pending list
    is run and its outcome is stored under the position the job has in
    [jobs].  Every job submitted is run. *)
Fixpoint run_pool {J R} (f : J → R) (n : nat) (picks : list nat)
    (pending : list (nat * J)) (finished : gmap nat R) : gmap nat R :=
  match n with
  | O => finished
  | S n' =>
      let k := (hd 0 picks `mod` length pending)%nat in
      match pending !! k with
      | None => finished
      | Some (i, j) =>
          run_pool f n' (tl picks) (delete k pending) (<[i := f j]> finished)
      end
  end.

(** [pool.imap(f, jobs)]: the outcomes in the order of [jobs], whatever
    the order in which the workers produced them. *)
Definition imap {J R} (picks : list nat) (f : J → R) (jobs : list J) : list R :=
  let finished := run_pool f (length jobs) picks (zip (seq 0 (length jobs)) jobs) ∅ in
  omap (λ i, finished !! i) (seq 0 (length jobs)).

Definition create_index_multiprocessing (picks : list nat)
    (categories : list category)
    (annotations_by_filename : list (string * list annotation)) (sep : string)
    : file * result () :=
  let category_ids := sorted_ids categories in
  let fp := [create_header_row category_ids sep] in
  let jobs := (λ item, (category_ids, item.1, item.2, sep)) <$> annotations_by_filename in
  write_rows fp (imap picks wrapped_create_index_row jobs).

End row.

Arguments create_index_row {H} category_ids filename annotations sep.
Arguments wrapped_create_index_row {H} args.
Arguments create_index_sequentially {H} categories annotations_by_filename sep.
Arguments create_index_multiprocessing {H} picks categories annotations_by_filename sep.

End CreateIndex.
Export CreateIndex.

Example splitext_ex :
  (splitext_root "P0001.png", splitext_root "a.b/c", splitext_root "d/.cshrc",
   splitext_root "x.tar.gz") = ("P0001", "a.b/c", "d/.cshrc", "x.tar")%string.
Proof. reflexivity. Qed.

(* ================================================================== *)
(** * An exact instance of the numpy interface *)
(* ================================================================== *)

(** Reductions in exact arithmetic, without rounding: a scalar is a
    rational, or the square root of a rational (the standard deviation of
    rationals is one).  The examples below run on it. *)
Module Exact.

Inductive scalar : Type :=
  | Rat (q : Q)
  | Root (q : Q).

(** A strictly increasing image of the scalars in the rationals: [q * |q|]
    for a rational, the radicand for a square root. *)
Definition signed_square (v : scalar) : Q :=
  match v with
  | Rat q => (q * Qabs q)%Q
  | Root q => Qmax q 0
  end.

Definition lt (a b : scalar) : bool :=
  match (signed_square a ?= signed_square b)%Q with Lt => true | _ => false end.
Definition le (a b : scalar) : bool := negb (lt b a).

Definition str_Q (q : Q) : string :=
  str_int (Qnum q) +:+ "/" +:+ str_int (Z.pos (Qden q)).
Definition str (v : scalar) : string :=
  match v with
  | Rat q => str_Q q
  | Root q => "sqrt(" +:+ str_Q q +:+ ")"
  end.

Definition total (a : list Q) : Q := foldr Qplus 0%Q a.
Definition count (a : list Q) : Q := inject_Z (Z.of_nat (length a)).
Definition average (a : list Q) : Q := Qred (total a / count a)%Q.
Definition least (a : list Q) : Q :=
  match a with [] => 0%Q | x :: xs => foldl Qmin x xs end.
Definition greatest (a : list Q) : Q :=
  match a with [] => 0%Q | x :: xs => foldl Qmax x xs end.
(** Population variance: the mean of the squared deviations. *)
Definition variance (a : list Q) : Q :=
  average ((λ x, (x - average a) * (x - average a))%Q <$> a).

#[global] Instance numpy : NumPy := {|
  num := scalar;
  num_lt := lt;
  num_le := le;
  num_str := str;
  np_sum a := Rat (Qred (total a));
  np_min a := Rat (least a);
  np_mean a := Rat (average a);
  np_max a := Rat (greatest a);
  np_std a := Root (variance a);
|}.

End Exact.

(** The image [Has13] of the specification: three instances of category 1
    and four of category 3, among the categories 1, 2 and 3. *)
Definition ann (cid : Z) (a : Q) : annotation :=
  {| category_id := cid; area := a; bbox := (0, 0, 1, 1)%Q; iscrowd := false |}.
Definition Has13 : list annotation :=
  [ann 1 10; ann 3 5; ann 1 20; ann 3 5; ann 3 5; ann 1 30; ann 3 45]%Q.

Example Has13_row :
  (λ row, (field [1; 2; 3] row "NumInstances", field [1; 2; 3] row "NumCategories",
           field [1; 2; 3] row "NumInstances_1", field [1; 2; 3] row "NumInstances_2",
           field [1; 2; 3] row "NumInstances_3", field [1; 2; 3] row "TotalArea_2",
           field [1; 2; 3] row "CategoryOf_Highest_TotalArea",
           field [1; 2; 3] row "CategoryOf_Lowest_MinArea",
           field [1; 2; 3] row "CategoryOf_Highest_StdevArea",
           field [1; 2; 3] row "Highest_TotalArea"))
    <$> index_row [1; 2; 3] "Has13.png" Has13
  = Ok (Some (CInt 7), Some (CInt 2), Some (CInt 3), Some (CInt 0), Some (CInt 4),
        Some (CInt 0), Some (CInt 1), Some (CInt 3), Some (CInt 3),
        Some (CNum (Exact.Rat 60%Q))).
Proof. reflexivity. Qed.

Example empty_image_raises : index_row [1; 2; 3] "Empty.png" [] = Err ValueError.
Proof. reflexivity. Qed.

(* ================================================================== *)
(** * index.py *)
(* ================================================================== *)

Module Index.

(** A cell of a loaded table: text, an integer, a float, or a missing
    value (NaN). *)
Inductive value : Set :=
  | VStr (s : string)
  | VInt (n : Z)
  | VFloat (q : Qc)
  | VNaN.

#[global] Instance value_eq_dec : EqDecision value.
Proof. solve_decision. Defined.
#[global] Instance value_countable : Countable value.
Proof.
  refine (inj_countable'
    (λ v, match v with
          | VStr s => inl s
          | VInt n => inr (inl n)
          | VFloat q => inr (inr (inl q))
          | VNaN => inr (inr (inr ()))
          end)
    (λ x, match x with
          | inl s => VStr s
          | inr (inl n) => VInt n
          | inr (inr (inl q)) => VFloat q
          | inr (inr (inr _)) => VNaN
          end) _).
  by intros [].
Defined.

(** A pandas [DataFrame]: the column names and the rows, a row holding one
    value per column. *)
Record DataFrame := {
  columns : list string;
  records : list (list value);
}.

Definition ImageId : Set := value.
Definition ClassId : Set := Z.

(** The values of the first column called [name], if there is one. *)
Definition series (df : DataFrame) (name : string) : option (list value) :=
  i ← index_of name (columns df);
  Some ((λ r, default VNaN (r !! i)) <$> records df).

(** [df.ImageID] *)
Definition getattr_ImageID (df : DataFrame) : result (list value) :=
  match series df "ImageID" with Some s => Ok s | None => Err AttributeError end.

(** [df[name]] *)
Definition getitem_column (df : DataFrame) (name : string) : result (list value) :=
  match series df name with Some s => Ok s | None => Err KeyError end.

(** [df[selector]] for a boolean selector: the rows it marks. *)
Definition select (df : DataFrame) (selector : list bool) : DataFrame :=
  {| columns := columns df;
     records := (filter (λ p, p.2 = true) (zip (records df) selector)).*1 |}.

(** Element-wise comparisons of a column. [column != ''] and
    [column == '']: only the empty string equals ['']. *)
Definition ne_empty (v : value) : bool :=
  match v with VStr s => bool_decide (s ≠ "") | _ => true end.
Definition eq_empty (v : value) : bool := negb (ne_empty v).

(** [v > n], [v >= n] and [v < n] against an [int]: a comparison with a
    missing value is false, text is not ordered with numbers. *)
Definition compare_int (int_case : Z → Z → bool) (float_case : Qc → Qc → bool)
    (v : value) (n : Z) : result bool :=
  match v with
  | VInt m => Ok (int_case m n)
  | VFloat q => Ok (float_case q (Qc_of_Z n))
  | VNaN => Ok false
  | VStr _ => Err TypeError
  end.
Definition gt_int := compare_int Z.gtb (λ a b, bool_decide (b < a)%Qc).
Definition ge_int := compare_int Z.geb (λ a b, bool_decide (b ≤ a)%Qc).
Definition lt_int := compare_int Z.ltb (λ a b, bool_decide (a < b)%Qc).

(** The [COCOIndex] object: [_index] is [None] until a table is set. *)
Record COCOIndex := {
  _path : string;
  _index : option DataFrame;
}.

(** [self._index.ImageID] and the like on [None] is an [AttributeError]. *)
Definition table (self : COCOIndex) : result DataFrame :=
  match _index self with Some df => Ok df | None => Err AttributeError end.

Definition _true_selector (self : COCOIndex) : result (list bool) :=
  df ← table self; ids ← getattr_ImageID df; Ok (ne_empty <$> (ids : list value)).

Definition _false_selector (self : COCOIndex) : result (list bool) :=
  df ← table self; ids ← getattr_ImageID df; Ok (eq_empty <$> (ids : list value)).

Definition get_images (self : COCOIndex) : result (gset ImageId) :=
  df ← table self; ids ← getattr_ImageID df; Ok (list_to_set ids).

(** [set(int(c.split('_')[1]) for c in columns if 'NumInstances_' in c)] *)
Definition get_classes (self : COCOIndex) : result (gset ClassId) :=
  df ← table self;
  ids ← traverse (λ c, piece ← getitem (split "_" c) 1; int_str piece)
                 (filter (λ c, contains "NumInstances_" c = true) (columns df));
  Ok (list_to_set ids).

(** [set(self._index[selector].ImageID)] *)
Definition selected_images (df : DataFrame) (selector : list bool)
    : result (gset ImageId) :=
  ids ← getattr_ImageID (select df selector); Ok (list_to_set ids).

Fixpoint any_class (df : DataFrame) (selector : list bool) (classes : list ClassId)
    : result (list bool) :=
  match classes with
  | [] => Ok selector
  | class_id :: rest =>
      column ← getitem_column df ("NumInstances_" +:+ str_int class_id);
      positive ← traverse (λ v, gt_int v 0) column;
      any_class df (zip_with orb selector positive) rest
  end.

Definition get_images_with_classes (self : COCOIndex) (classes : list ClassId)
    : result (gset ImageId) :=
  selector ← _false_selector self;
  df ← table self;
  selector ← any_class df selector classes;
  selected_images df selector.

(** One bound of the loop body: [if bound is not None: selector &= ...]. *)
Definition and_bound (df : DataFrame) (class_id : ClassId)
    (cmp : value → Z → result bool) (bound : option Z) (selector : list bool)
    : result (list bool) :=
  match bound with
  | None => Ok selector
  | Some b =>
      column ← getitem_column df ("NumInstances_" +:+ str_int class_id);
      inside ← traverse (λ v, cmp v b) column;
      Ok (zip_with andb selector inside)
  end.

Fixpoint every_class (df : DataFrame) (selector : list bool) (classes : list ClassId)
    (lower upper : option Z) : result (list bool) :=
  match classes with
  | [] => Ok selector
  | class_id :: rest =>
      selector ← and_bound df class_id ge_int lower selector;
      selector ← and_bound df class_id lt_int upper selector;
      every_class df selector rest lower upper
  end.

Definition get_images_with_bounded_num_instances (self : COCOIndex)
    (classes : list ClassId) (lower upper : option Z) : result (gset ImageId) :=
  selector ← _true_selector self;
  df ← table self;
  selector ← every_class df selector classes lower upper;
  selected_images df selector.

(** [series.isin(image_ids)] *)
Definition isin (image_ids : gset ImageId) (ids : list value) : list bool :=
  (λ v, bool_decide (v ∈ image_ids)) <$> ids.

(** [keep] and [remove] replace [self._index]; the object after the call
    is returned. *)
Definition keep (self : COCOIndex) (image_ids : gset ImageId) : result COCOIndex :=
  df ← table self;
  ids ← getattr_ImageID df;
  Ok {| _path := _path self; _index := Some (select df (isin image_ids ids)) |}.

Definition remove (self : COCOIndex) (image_ids : gset ImageId) : result COCOIndex :=
  df ← table self;
  ids ← getattr_ImageID df;
  Ok {| _path := _path self; _index := Some (select df (negb <$> isin image_ids ids)) |}.

(** ** Loading *)

(** [pd.read_csv] names the columns after the fields of the header line
    (the separator is [","]); a name that repeats an earlier one is given
    the suffix [.k], [k] counting the earlier occurrences (pandas: duplicate
    columns are specified as X, X.1, ... X.N). *)
Fixpoint mangle_dupe_cols (seen : list string) (names : list string) : list string :=
  match names with
  | [] => []
  | c :: rest =>
      let k := length (filter (λ s, s = c) seen) in
      (if k is O then c else c +:+ "." +:+ str_int (Z.of_nat k))
        :: mangle_dupe_cols (c :: seen) rest
  end.

Definition read_csv_columns (header : string) : list string :=
  mangle_dupe_cols [] (split "," header).

(** A loaded table: the table is there and has the [ImageID] column, and
    no image id is the empty string. [pd.read_csv] reads an empty field as
    a missing value. *)
Definition loaded (self : COCOIndex) : Prop :=
  ∃ df ids, _index self = Some df ∧ series df "ImageID" = Some ids ∧
            VStr "" ∉ ids.

End Index.
Export Index.

(** The table of the unit tests of [index.py] (its first rows). *)
Definition test_index : COCOIndex :=
  {| _path := "";
     _index := Some {|
       columns := ["ImageID"; "NumInstances_1"; "NumInstances_2"; "NumInstances_3"];
       records := [
         [VStr "Empty"; VInt 0; VInt 0; VInt 0];
         [VStr "Has1"; VInt 1; VInt 0; VInt 0];
         [VStr "Has2"; VInt 0; VInt 2; VInt 0];
         [VStr "Has13"; VInt 3; VInt 0; VInt 4];
         [VStr "Has123"; VInt 4; VInt 5; VInt 1]
       ] |} |}.

Example test_get_classes : get_classes test_index = Ok {[1; 2; 3]}.
Proof. vm_compute. reflexivity. Qed.
Example test_bounded_lower_upper :
  get_images_with_bounded_num_instances test_index [1] (Some 3) (Some 4)
  = Ok {[VStr "Has13"]}.
Proof. vm_compute. reflexivity. Qed.
Example test_with_classes :
  get_images_with_classes test_index [2; 3]
  = Ok {[VStr "Has2"; VStr "Has13"; VStr "Has123"]}.
Proof. vm_compute. reflexivity. Qed.

(* ================================================================== *)
(** * Lemmas on the Python primitives *)
(* ================================================================== *)

Lemma bind_Ok {A B} (m : result A) (f : A → result B) (b : B) :
  m ≫= f = Ok b ↔ ∃ a, m = Ok a ∧ f a = Ok b.
Proof.
  destruct m as [a|e]; simpl.
  - split; [eauto | by intros (? & [= ->] & ?)].
  - split; [done | by intros (? & [=] & _)].
Qed.

Lemma fmap_Ok {A B} (m : result A) (f : A → B) (b : B) :
  f <$> m = Ok b ↔ ∃ a, m = Ok a ∧ b = f a.
Proof.
  destruct m as [a|e]; simpl.
  - split; [intros [= <-]; eauto | by intros (? & [= ->] & ->)].
  - split; [done | by intros (? & [=] & _)].
Qed.

Lemma traverse_Ok {A B} (f : A → result B) (g : A → B) (l : list A) :
  (∀ x, x ∈ l → f x = Ok (g x)) → traverse f l = Ok (g <$> l).
Proof.
  induction l as [|x l IH]; intros Hf; simpl; [done|].
  rewrite (Hf x) by apply list_elem_of_here. simpl.
  rewrite IH by (intros; by apply Hf, list_elem_of_further). done.
Qed.

Lemma scan_max_cons {V} (lt : V → V → bool) (c x : V) (l : list V) :
  scan_max lt c (x :: l) = scan_max lt (if lt c x then x else c) l.
Proof. done. Qed.

Lemma scan_min_cons {V} (lt : V → V → bool) (c x : V) (l : list V) :
  scan_min lt c (x :: l) = scan_min lt (if lt x c then x else c) l.
Proof. done. Qed.

(** The keyed scan carries the key of its current item along, so its key
    is the scan of the keys. *)
Lemma scan_max_key {A V} (lt : V → V → bool) (k : A → V) (l : list A) (c : A) :
  ∃ m, scan_max (by_key lt) (c, k c) ((λ x, (x, k x)) <$> l)
       = (m, scan_max lt (k c) (k <$> l)) ∧ m ∈ c :: l ∧
       k m = scan_max lt (k c) (k <$> l).
Proof.
  revert c. induction l as [|x l IH]; intros c.
  - exists c. split; [done|]. split; [apply list_elem_of_here | done].
  - rewrite !fmap_cons, !scan_max_cons.
    change (by_key lt (c, k c) (x, k x)) with (lt (k c) (k x)).
    destruct (lt (k c) (k x)).
    + destruct (IH x) as (m & E & Hin & Hk). exists m.
      split; [done|]. split; [by apply list_elem_of_further | done].
    + destruct (IH c) as (m & E & Hin & Hk). exists m.
      split; [done|]. split; [|done].
      apply elem_of_cons in Hin as [Heq|Hin].
      * rewrite Heq. apply list_elem_of_here.
      * by do 2 apply list_elem_of_further.
Qed.

Lemma scan_min_key {A V} (lt : V → V → bool) (k : A → V) (l : list A) (c : A) :
  ∃ m, scan_min (by_key lt) (c, k c) ((λ x, (x, k x)) <$> l)
       = (m, scan_min lt (k c) (k <$> l)) ∧ m ∈ c :: l ∧
       k m = scan_min lt (k c) (k <$> l).
Proof.
  revert c. induction l as [|x l IH]; intros c.
  - exists c. split; [done|]. split; [apply list_elem_of_here | done].
  - rewrite !fmap_cons, !scan_min_cons.
    change (by_key lt (x, k x) (c, k c)) with (lt (k x) (k c)).
    destruct (lt (k x) (k c)).
    + destruct (IH x) as (m & E & Hin & Hk). exists m.
      split; [done|]. split; [by apply list_elem_of_further | done].
    + destruct (IH c) as (m & E & Hin & Hk). exists m.
      split; [done|]. split; [|done].
      apply elem_of_cons in Hin as [Heq|Hin].
      * rewrite Heq. apply list_elem_of_here.
      * by do 2 apply list_elem_of_further.
Qed.

Lemma keyed_Ok {A V} (f : A → result V) (k : A → V) (l : list A) :
  (∀ x, x ∈ l → f x = Ok (k x)) → keyed f l = Ok ((λ x, (x, k x)) <$> l).
Proof.
  intros Hf. unfold keyed. apply traverse_Ok.
  intros x Hx. by rewrite (Hf x Hx).
Qed.

(** ** Grouping and dict comprehensions *)

Lemma group_by_cid_last (l : list annotation) (a : annotation) :
  group_by_cid (l ++ [a])
  = <[category_id a := (group_by_cid l !!! category_id a) ++ [a]]> (group_by_cid l).
Proof. unfold group_by_cid. by rewrite foldl_app. Qed.

(** The group of a category holds the annotations of that category, in the
    order of the annotation list. *)
Lemma group_by_cid_lookup (l : list annotation) (cid : Z) :
  group_by_cid l !!! cid = filter (λ a, category_id a = cid) l.
Proof.
  induction l as [|a l IH] using rev_ind; [done|].
  rewrite group_by_cid_last, filter_app.
  destruct (decide (category_id a = cid)) as [Heq|Hne].
  - rewrite Heq, lookup_total_insert_eq, IH.
    by rewrite filter_cons_True by done.
  - rewrite lookup_total_insert_ne by done.
    rewrite filter_cons_False by done. by rewrite IH, filter_nil, app_nil_r.
Qed.

Lemma dict_comprehension_last {V} (f : Z → V) (keys : list Z) (k : Z) :
  dict_comprehension f (keys ++ [k]) = <[k := f k]> (dict_comprehension f keys).
Proof. unfold dict_comprehension. by rewrite foldl_app. Qed.

Lemma dict_comprehension_lookup {V} (f : Z → V) (keys : list Z) (k : Z) :
  k ∈ keys → dict_comprehension f keys !! k = Some (f k).
Proof.
  induction keys as [|k' keys IH] using rev_ind; [by intros ?%elem_of_nil|].
  rewrite dict_comprehension_last. intros Hin.
  destruct (decide (k' = k)) as [->|Hne].
  - by rewrite lookup_insert_eq.
  - rewrite lookup_insert_ne by done. apply IH.
    apply elem_of_app in Hin as [Hin|Hin%list_elem_of_singleton]; done.
Qed.

Lemma dict_getitem_comprehension {V} (f : Z → V) (keys : list Z) (k : Z) :
  k ∈ keys → dict_getitem (dict_comprehension f keys) k = Ok (f k).
Proof. intros Hin. unfold dict_getitem. by rewrite dict_comprehension_lookup. Qed.

(* ================================================================== *)
(** * The row of one image in closed form *)
(* ================================================================== *)

(** The annotations of one category, in the order of the list. *)
Definition group (annotations : list annotation) (cid : Z) : list annotation :=
  filter (λ a, category_id a = cid) annotations.

Lemma annotations_by_cid_group (annotations : list annotation) (cid : Z) :
  annotations_by_cid annotations !!! cid = group annotations cid.
Proof. apply group_by_cid_lookup. Qed.

Lemma nonempty_category_ids_spec (category_ids : list Z) (annotations : list annotation)
    (cid : Z) :
  cid ∈ nonempty_category_ids category_ids annotations
  ↔ cid ∈ category_ids ∧ group annotations cid ≠ [].
Proof.
  unfold nonempty_category_ids. rewrite list_elem_of_filter, annotations_by_cid_group.
  unfold len. destruct (group annotations cid); simpl; split; intros [? ?];
    split; try done; lia.
Qed.

(** An annotation of a known category makes that category nonempty. *)
Lemma nonempty_category_ids_of (category_ids : list Z) (annotations : list annotation)
    (a : annotation) :
  a ∈ annotations → category_id a ∈ category_ids →
  category_id a ∈ nonempty_category_ids category_ids annotations.
Proof.
  intros Ha Hc. apply nonempty_category_ids_spec. split; [done|].
  intros Hnil. assert (a ∈ group annotations (category_id a)) as Hin
    by (by apply list_elem_of_filter).
  rewrite Hnil in Hin. by apply elem_of_nil in Hin.
Qed.

Lemma nonempty_category_ids_nil (category_ids : list Z) :
  nonempty_category_ids category_ids [] = [].
Proof.
  destruct (nonempty_category_ids category_ids []) as [|c rest] eqn:Hne; [done|].
  assert (c ∈ nonempty_category_ids category_ids []) as Hin
    by (rewrite Hne; apply list_elem_of_here).
  by apply nonempty_category_ids_spec in Hin as [_ ?].
Qed.

Section row_closed_form.
Context `{NumPy}.
Variable category_ids : list Z.
Variable filename : string.
Variable annotations : list annotation.

(** The six statistics of a category as plain values. *)
Definition stat_len (cid : Z) : Z := len (group annotations cid).
Definition stat_sum (cid : Z) : num := np_sum (area <$> group annotations cid).
Definition stat_min (cid : Z) : num := np_min (area <$> group annotations cid).
Definition stat_mean (cid : Z) : num := np_mean (area <$> group annotations cid).
Definition stat_max (cid : Z) : num := np_max (area <$> group annotations cid).
Definition stat_std (cid : Z) : num := np_std (area <$> group annotations cid).

Lemma areas_by_cid_getitem (cid : Z) :
  cid ∈ category_ids →
  dict_getitem (areas_by_cid category_ids annotations) cid
  = Ok (area <$> group annotations cid).
Proof.
  intros Hin. unfold areas_by_cid.
  rewrite dict_getitem_comprehension by done. by rewrite annotations_by_cid_group.
Qed.

Lemma bboxes_by_cid_getitem (cid : Z) :
  cid ∈ category_ids →
  dict_getitem (bboxes_by_cid category_ids annotations) cid
  = Ok (bbox <$> group annotations cid).
Proof.
  intros Hin. unfold bboxes_by_cid.
  rewrite dict_getitem_comprehension by done. by rewrite annotations_by_cid_group.
Qed.

Lemma ndarray_min_Ok (a : list Q) : a ≠ [] → ndarray_min a = Ok (np_min a).
Proof. by destruct a. Qed.
Lemma ndarray_max_Ok (a : list Q) : a ≠ [] → ndarray_max a = Ok (np_max a).
Proof. by destruct a. Qed.
Lemma ndarray_column_Ok {B} (coord : B → Q) (a : list B) :
  a ≠ [] → ndarray_column coord a = Ok (coord <$> a).
Proof. by destruct a. Qed.

Lemma fmap_nonempty {A B} (f : A → B) (l : list A) : l ≠ [] → f <$> l ≠ [].
Proof. by destruct l. Qed.

Section on_nonempty.
Variable cid : Z.
Hypothesis Hcid : cid ∈ nonempty_category_ids category_ids annotations.

Lemma cat_len_Ok : cat_len annotations cid = Ok (stat_len cid).
Proof. unfold cat_len, stat_len. by rewrite annotations_by_cid_group. Qed.

Lemma cat_sum_Ok : cat_sum category_ids annotations cid = Ok (stat_sum cid).
Proof.
  apply nonempty_category_ids_spec in Hcid as [Hin Hne].
  unfold cat_sum. by rewrite areas_by_cid_getitem.
Qed.

Lemma cat_min_Ok : cat_min category_ids annotations cid = Ok (stat_min cid).
Proof.
  apply nonempty_category_ids_spec in Hcid as [Hin Hne].
  unfold cat_min. rewrite areas_by_cid_getitem by done. simpl.
  by apply ndarray_min_Ok, fmap_nonempty.
Qed.

Lemma cat_mean_Ok : cat_mean category_ids annotations cid = Ok (stat_mean cid).
Proof.
  apply nonempty_category_ids_spec in Hcid as [Hin Hne].
  unfold cat_mean. by rewrite areas_by_cid_getitem.
Qed.

Lemma cat_max_Ok : cat_max category_ids annotations cid = Ok (stat_max cid).
Proof.
  apply nonempty_category_ids_spec in Hcid as [Hin Hne].
  unfold cat_max. rewrite areas_by_cid_getitem by done. simpl.
  by apply ndarray_max_Ok, fmap_nonempty.
Qed.

Lemma cat_std_Ok : cat_std category_ids annotations cid = Ok (stat_std cid).
Proof.
  apply nonempty_category_ids_spec in Hcid as [Hin Hne].
  unfold cat_std. by rewrite areas_by_cid_getitem.
Qed.
End on_nonempty.

End row_closed_form.

(** ** The extrema over the nonempty categories *)

(** The category [max(items, key=k)] selects among [c0 :: rest], and the
    one [min] selects. *)
Definition arg_max {V} (lt : V → V → bool) (k : Z → V) (c0 : Z) (rest : list Z) : Z :=
  (scan_max (by_key lt) (c0, k c0) ((λ x, (x, k x)) <$> rest)).1.
Definition arg_min {V} (lt : V → V → bool) (k : Z → V) (c0 : Z) (rest : list Z) : Z :=
  (scan_min (by_key lt) (c0, k c0) ((λ x, (x, k x)) <$> rest)).1.

Lemma arg_max_elem {V} (lt : V → V → bool) (k : Z → V) c0 rest :
  arg_max lt k c0 rest ∈ c0 :: rest.
Proof. unfold arg_max. by destruct (scan_max_key lt k rest c0) as (m & -> & ? & _). Qed.

Lemma arg_min_elem {V} (lt : V → V → bool) (k : Z → V) c0 rest :
  arg_min lt k c0 rest ∈ c0 :: rest.
Proof. unfold arg_min. by destruct (scan_min_key lt k rest c0) as (m & -> & ? & _). Qed.

(** The extremal value is the value of the category selected. *)
Lemma arg_max_value {V} (lt : V → V → bool) (k : Z → V) c0 rest :
  k (arg_max lt k c0 rest) = scan_max lt (k c0) (k <$> rest).
Proof. unfold arg_max. by destruct (scan_max_key lt k rest c0) as (m & -> & _ & ?). Qed.

Lemma arg_min_value {V} (lt : V → V → bool) (k : Z → V) c0 rest :
  k (arg_min lt k c0 rest) = scan_min lt (k c0) (k <$> rest).
Proof. unfold arg_min. by destruct (scan_min_key lt k rest c0) as (m & -> & _ & ?). Qed.

Section extrema.
Context {V : Type}.
Variable category_ids : list Z.
Variable annotations : list annotation.
Variable lt : V → V → bool.
Variable f : Z → result V.
Variable k : Z → V.
Variable c0 : Z.
Variable rest : list Z.
Hypothesis Hne : nonempty_category_ids category_ids annotations = c0 :: rest.
Hypothesis Hf : ∀ c, c ∈ nonempty_category_ids category_ids annotations → f c = Ok (k c).

Lemma highest_Ok :
  highest category_ids annotations lt f = Ok (scan_max lt (k c0) (k <$> rest)).
Proof.
  unfold highest. rewrite (traverse_Ok f k) by done. by rewrite Hne.
Qed.

Lemma lowest_Ok :
  lowest category_ids annotations lt f = Ok (scan_min lt (k c0) (k <$> rest)).
Proof.
  unfold lowest. rewrite (traverse_Ok f k) by done. by rewrite Hne.
Qed.

Lemma category_of_highest_Ok :
  category_of_highest category_ids annotations lt f = Ok (arg_max lt k c0 rest).
Proof.
  unfold category_of_highest, py_max_key.
  rewrite (keyed_Ok f k) by done. by rewrite Hne.
Qed.

Lemma category_of_lowest_Ok :
  category_of_lowest category_ids annotations lt f = Ok (arg_min lt k c0 rest).
Proof.
  unfold category_of_lowest, py_min_key.
  rewrite (keyed_Ok f k) by done. by rewrite Hne.
Qed.
End extrema.

Section row_closed_form_cells.
Context `{NumPy}.
Variable category_ids : list Z.
Variable filename : string.
Variable annotations : list annotation.

#[local] Abbreviation slen := (stat_len annotations).
#[local] Abbreviation ssum := (stat_sum annotations).
#[local] Abbreviation smin := (stat_min annotations).
#[local] Abbreviation smean := (stat_mean annotations).
#[local] Abbreviation smax := (stat_max annotations).
#[local] Abbreviation sstd := (stat_std annotations).

(** The 36 leading entries of the row, when the nonempty categories are
    [c0 :: rest]. *)
Definition fixed_row (c0 : Z) (rest : list Z) : list cell := [
  CStr (splitext_root filename);
  CInt (len annotations);
  CInt (len (c0 :: rest));
  CNum (np_sum (areas annotations));
  CNum (np_min (areas annotations));
  CNum (np_mean (areas annotations));
  CNum (np_max (areas annotations));
  CNum (np_std (areas annotations));
  CNum (np_mean (bbox_x <$> bboxes annotations));
  CNum (np_mean (bbox_y <$> bboxes annotations));
  CNum (np_std (bbox_x <$> bboxes annotations));
  CNum (np_std (bbox_y <$> bboxes annotations));
  CInt (scan_max Z.ltb (slen c0) (slen <$> rest));
  CNum (scan_max num_lt (ssum c0) (ssum <$> rest));
  CNum (scan_max num_lt (smin c0) (smin <$> rest));
  CNum (scan_max num_lt (smean c0) (smean <$> rest));
  CNum (scan_max num_lt (smax c0) (smax <$> rest));
  CNum (scan_max num_lt (sstd c0) (sstd <$> rest));
  CInt (scan_min Z.ltb (slen c0) (slen <$> rest));
  CNum (scan_min num_lt (ssum c0) (ssum <$> rest));
  CNum (scan_min num_lt (smin c0) (smin <$> rest));
  CNum (scan_min num_lt (smean c0) (smean <$> rest));
  CNum (scan_min num_lt (smax c0) (smax <$> rest));
  CNum (scan_min num_lt (sstd c0) (sstd <$> rest));
  CInt (arg_max Z.ltb slen c0 rest);
  CInt (arg_max num_lt ssum c0 rest);
  CInt (arg_max num_lt smin c0 rest);
  CInt (arg_max num_lt smean c0 rest);
  CInt (arg_max num_lt smax c0 rest);
  CInt (arg_max num_lt sstd c0 rest);
  CInt (arg_min Z.ltb slen c0 rest);
  CInt (arg_min num_lt ssum c0 rest);
  CInt (arg_min num_lt smin c0 rest);
  CInt (arg_min num_lt smean c0 rest);
  CInt (arg_min num_lt smax c0 rest);
  CInt (arg_min num_lt sstd c0 rest)
].

Lemma fixed_cells_Ok (c0 : Z) (rest : list Z) :
  nonempty_category_ids category_ids annotations = c0 :: rest →
  fixed_cells category_ids filename annotations = Ok (fixed_row c0 rest).
Proof.
  intros Hne.
  assert (annotations ≠ []) as HA.
  { intros ->. unfold nonempty_category_ids in Hne.
    assert (c0 ∈ c0 :: rest) as Hin by apply list_elem_of_here.
    rewrite <- Hne in Hin. apply list_elem_of_filter in Hin as [Hlt _].
    by rewrite annotations_by_cid_group in Hlt. }
  unfold fixed_cells.
  rewrite ndarray_min_Ok, ndarray_max_Ok by (by apply fmap_nonempty).
  rewrite !ndarray_column_Ok by (by apply fmap_nonempty).
  rewrite (highest_Ok category_ids annotations Z.ltb (cat_len annotations) slen c0 rest Hne)
    by (intros; by apply cat_len_Ok).
  rewrite (highest_Ok category_ids annotations num_lt (cat_sum category_ids annotations) ssum c0 rest Hne)
    by (intros; by apply cat_sum_Ok).
  rewrite (highest_Ok category_ids annotations num_lt (cat_min category_ids annotations) smin c0 rest Hne)
    by (intros; by apply cat_min_Ok).
  rewrite (highest_Ok category_ids annotations num_lt (cat_mean category_ids annotations) smean c0 rest Hne)
    by (intros; by apply cat_mean_Ok).
  rewrite (highest_Ok category_ids annotations num_lt (cat_max category_ids annotations) smax c0 rest Hne)
    by (intros; by apply cat_max_Ok).
  rewrite (highest_Ok category_ids annotations num_lt (cat_std category_ids annotations) sstd c0 rest Hne)
    by (intros; by apply cat_std_Ok).
  rewrite (lowest_Ok category_ids annotations Z.ltb (cat_len annotations) slen c0 rest Hne)
    by (intros; by apply cat_len_Ok).
  rewrite (lowest_Ok category_ids annotations num_lt (cat_sum category_ids annotations) ssum c0 rest Hne)
    by (intros; by apply cat_sum_Ok).
  rewrite (lowest_Ok category_ids annotations num_lt (cat_min category_ids annotations) smin c0 rest Hne)
    by (intros; by apply cat_min_Ok).
  rewrite (lowest_Ok category_ids annotations num_lt (cat_mean category_ids annotations) smean c0 rest Hne)
    by (intros; by apply cat_mean_Ok).
  rewrite (lowest_Ok category_ids annotations num_lt (cat_max category_ids annotations) smax c0 rest Hne)
    by (intros; by apply cat_max_Ok).
  rewrite (lowest_Ok category_ids annotations num_lt (cat_std category_ids annotations) sstd c0 rest Hne)
    by (intros; by apply cat_std_Ok).
  rewrite (category_of_highest_Ok category_ids annotations Z.ltb (cat_len annotations) slen c0 rest Hne)
    by (intros; by apply cat_len_Ok).
  rewrite (category_of_highest_Ok category_ids annotations num_lt (cat_sum category_ids annotations) ssum c0 rest Hne)
    by (intros; by apply cat_sum_Ok).
  rewrite (category_of_highest_Ok category_ids annotations num_lt (cat_min category_ids annotations) smin c0 rest Hne)
    by (intros; by apply cat_min_Ok).
  rewrite (category_of_highest_Ok category_ids annotations num_lt (cat_mean category_ids annotations) smean c0 rest Hne)
    by (intros; by apply cat_mean_Ok).
  rewrite (category_of_highest_Ok category_ids annotations num_lt (cat_max category_ids annotations) smax c0 rest Hne)
    by (intros; by apply cat_max_Ok).
  rewrite (category_of_highest_Ok category_ids annotations num_lt (cat_std category_ids annotations) sstd c0 rest Hne)
    by (intros; by apply cat_std_Ok).
  rewrite (category_of_lowest_Ok category_ids annotations Z.ltb (cat_len annotations) slen c0 rest Hne)
    by (intros; by apply cat_len_Ok).
  rewrite (category_of_lowest_Ok category_ids annotations num_lt (cat_sum category_ids annotations) ssum c0 rest Hne)
    by (intros; by apply cat_sum_Ok).
  rewrite (category_of_lowest_Ok category_ids annotations num_lt (cat_min category_ids annotations) smin c0 rest Hne)
    by (intros; by apply cat_min_Ok).
  rewrite (category_of_lowest_Ok category_ids annotations num_lt (cat_mean category_ids annotations) smean c0 rest Hne)
    by (intros; by apply cat_mean_Ok).
  rewrite (category_of_lowest_Ok category_ids annotations num_lt (cat_max category_ids annotations) smax c0 rest Hne)
    by (intros; by apply cat_max_Ok).
  rewrite (category_of_lowest_Ok category_ids annotations num_lt (cat_std category_ids annotations) sstd c0 rest Hne)
    by (intros; by apply cat_std_Ok).
  simpl. by rewrite Hne.
Qed.

End row_closed_form_cells.

Section row_closed_form_blocks.
Context `{NumPy}.
Variable category_ids : list Z.
Variable filename : string.
Variable annotations : list annotation.

(** The ten entries the loop appends for one category. *)
Definition block (cid : Z) : list cell :=
  let g := group annotations cid in
  if bool_decide (0 < len g) then [
    CInt (len g);
    CNum (np_sum (area <$> g));
    CNum (np_min (area <$> g));
    CNum (np_mean (area <$> g));
    CNum (np_max (area <$> g));
    CNum (np_std (area <$> g));
    CNum (np_mean (bbox_x <$> (bbox <$> g)));
    CNum (np_mean (bbox_y <$> (bbox <$> g)));
    CNum (np_std (bbox_x <$> (bbox <$> g)));
    CNum (np_std (bbox_y <$> (bbox <$> g)))
  ] else [
    CInt (len g); CInt 0; CInt 0; CInt 0; CInt 0; CInt 0; CInt 0; CInt 0; CInt 0; CInt 0
  ].

Lemma block_length (cid : Z) : length (block cid) = 10%nat.
Proof. unfold block. by case_bool_decide. Qed.

Lemma category_cells_Ok (cid : Z) :
  cid ∈ category_ids →
  category_cells category_ids annotations cid = Ok (block cid).
Proof.
  intros Hin. unfold category_cells, block, if_nonempty.
  rewrite areas_by_cid_getitem, bboxes_by_cid_getitem by done.
  rewrite annotations_by_cid_group. simpl.
  case_bool_decide as Hlen; [|done].
  assert (group annotations cid ≠ []) as Hne.
  { intros Hnil. rewrite Hnil in Hlen. unfold len in Hlen. simpl in Hlen. lia. }
  rewrite ndarray_min_Ok, ndarray_max_Ok by (by apply fmap_nonempty).
  rewrite !ndarray_column_Ok by (by apply fmap_nonempty). done.
Qed.

Lemma append_categories_Ok (cids : list Z) (row : list cell) :
  (∀ c, c ∈ cids → c ∈ category_ids) →
  append_categories category_ids annotations row cids
  = Ok (row ++ concat (block <$> cids)).
Proof.
  revert row. induction cids as [|c cids IH]; intros row Hsub; simpl.
  - by rewrite app_nil_r.
  - rewrite category_cells_Ok by (apply Hsub, list_elem_of_here). simpl.
    rewrite IH by (intros; by apply Hsub, list_elem_of_further).
    by rewrite <- app_assoc.
Qed.

(** The row, when the nonempty categories are [c0 :: rest]. *)
Lemma index_row_Ok (c0 : Z) (rest : list Z) :
  nonempty_category_ids category_ids annotations = c0 :: rest →
  index_row category_ids filename annotations
  = Ok (fixed_row filename annotations c0 rest ++ concat (block <$> category_ids)).
Proof.
  intros Hne. unfold index_row.
  rewrite (fixed_cells_Ok _ _ _ c0 rest Hne). simpl.
  by apply append_categories_Ok.
Qed.

(** Without a nonempty category there is no row: [max] of an empty
    sequence raises, and before it [min] of an empty array. *)
Lemma index_row_no_category :
  nonempty_category_ids category_ids annotations = [] →
  index_row category_ids filename annotations = Err ValueError.
Proof.
  intros Hne. unfold index_row, fixed_cells.
  destruct annotations as [|a rest]; [done|].
  cbn [areas bboxes fmap list_fmap ndarray_min ndarray_max ndarray_column
       result_fmap mbind result_bind].
  unfold highest. by rewrite Hne.
Qed.

Lemma index_row_inv (row : list cell) :
  index_row category_ids filename annotations = Ok row →
  ∃ c0 rest, nonempty_category_ids category_ids annotations = c0 :: rest ∧
    row = fixed_row filename annotations c0 rest ++ concat (block <$> category_ids).
Proof.
  destruct (nonempty_category_ids category_ids annotations) as [|c0 rest] eqn:Hne.
  - by rewrite index_row_no_category.
  - rewrite (index_row_Ok c0 rest Hne). intros [= <-]. eauto.
Qed.

End row_closed_form_blocks.

(* ================================================================== *)
(** * Decimal numerals: [str] and [int] *)
(* ================================================================== *)

(** The characters of a decimal numeral. *)
Definition is_int_char (c : ascii) : bool :=
  Ascii.eqb c "-" || ((48 <=? nat_of_ascii c)%nat && (nat_of_ascii c <=? 57)%nat).

Fixpoint string_forall (P : ascii → bool) (s : string) : bool :=
  match s with
  | EmptyString => true
  | String c s' => P c && string_forall P s'
  end.

Lemma string_forall_impl (P Q : ascii → bool) (s : string) :
  (∀ c, P c = true → Q c = true) →
  string_forall P s = true → string_forall Q s = true.
Proof.
  intros HPQ. induction s as [|c s IH]; simpl; [done|].
  rewrite !andb_true_iff. intros [? ?]. auto.
Qed.

Lemma string_of_uint_chars (d : uint) :
  string_forall is_int_char (NilEmpty.string_of_uint d) = true.
Proof. induction d; simpl; done. Qed.

Lemma str_int_chars (n : Z) : string_forall is_int_char (str_int n) = true.
Proof.
  unfold str_int. destruct (Z.to_int n) as [d|d]; simpl.
  - destruct d; try done; apply (string_of_uint_chars (_ _)).
  - destruct d; try done; apply (string_of_uint_chars (_ _)).
Qed.

Lemma to_int_not_nil (n : Z) : Z.to_int n ≠ Pos Nil ∧ Z.to_int n ≠ Neg Nil.
Proof.
  destruct n as [|p|p]; simpl; split; try done.
  - intros [= Hp]. by apply (DecimalPos.Unsigned.to_uint_nonnil p).
  - intros [= Hp]. by apply (DecimalPos.Unsigned.to_uint_nonnil p).
Qed.

Lemma lstrip_id (s : string) :
  string_forall (λ c, negb (is_space c)) s = true → lstrip s = s.
Proof.
  destruct s as [|c s]; simpl; [done|].
  rewrite andb_true_iff. intros [Hc _]. by destruct (is_space c).
Qed.

Lemma rstrip_id (s : string) :
  string_forall (λ c, negb (is_space c)) s = true → rstrip s = s.
Proof.
  induction s as [|c s IH]; simpl; [done|].
  rewrite andb_true_iff. intros [Hc Hs]. rewrite (IH Hs).
  destruct s; [by destruct (is_space c) | done].
Qed.

Lemma int_char_not_space (c : ascii) : is_int_char c = true → negb (is_space c) = true.
Proof. destruct c as [[] [] [] [] [] [] [] []]; done. Qed.

Lemma int_char_not (c x : ascii) :
  is_int_char x = false → is_int_char c = true → Ascii.eqb c x = false.
Proof.
  intros Hx Hc. destruct (Ascii.eqb_spec c x) as [->|]; [congruence | done].
Qed.

(** [int] reads back what [str] wrote. *)
Lemma int_str_str_int (n : Z) : int_str (str_int n) = Ok n.
Proof.
  unfold int_str.
  pose proof (str_int_chars n) as Hchars.
  rewrite lstrip_id, rstrip_id
    by (eapply string_forall_impl; [apply int_char_not_space | done]).
  destruct (to_int_not_nil n) as [Hpos Hneg].
  destruct (str_int n) as [|c t] eqn:Hs.
  - unfold str_int in Hs. pose proof (NilZero.isi _ Hpos Hneg) as Hisi.
    rewrite Hs in Hisi. done.
  - simpl in Hchars. apply andb_true_iff in Hchars as [Hc _].
    rewrite (int_char_not c "+") by done.
    rewrite <- Hs. unfold str_int. rewrite NilZero.isi by done.
    by rewrite DecimalZ.of_to.
Qed.

Lemma str_int_inj (a b : Z) : str_int a = str_int b → a = b.
Proof.
  intros Heq. pose proof (int_str_str_int a) as Ha.
  rewrite Heq, int_str_str_int in Ha. by injection Ha.
Qed.

Lemma str_int_eqb (a b : Z) : String.eqb (str_int a) (str_int b) = bool_decide (a = b).
Proof.
  case_bool_decide as Hab.
  - subst. apply String.eqb_refl.
  - apply String.eqb_neq. intros ?%str_int_inj. done.
Qed.

(* ================================================================== *)
(** * Columns and fields *)
(* ================================================================== *)

Lemma header_columns_eq (category_ids : list Z) :
  header_columns category_ids
  = fixed_columns ++ concat (category_columns <$> category_ids).
Proof.
  unfold header_columns. generalize fixed_columns as acc.
  induction category_ids as [|c cs IH]; intros acc; simpl.
  - by rewrite app_nil_r.
  - by rewrite IH, <- app_assoc.
Qed.

Lemma index_of_app (x : string) (l1 l2 : list string) :
  index_of x (l1 ++ l2)
  = match index_of x l1 with
    | Some i => Some i
    | None => (λ i, length l1 + i)%nat <$> index_of x l2
    end.
Proof.
  induction l1 as [|y l1 IH]; simpl.
  - by destruct (index_of x l2).
  - destruct (String.eqb x y); [done|]. rewrite IH.
    destruct (index_of x l1); [done|]. by destruct (index_of x l2).
Qed.

(** The ten column names of a category are distinct, are not among the
    fixed columns, and are not names of another category.  After the
    prefixes are compared, what is left is the comparison of two numerals. *)
Lemma append_empty_l (s : string) : ("" +:+ s)%string = s.
Proof. done. Qed.

Ltac block_names j :=
  do 10 (destruct j as [|j]; [simplify_eq/=; rewrite ?append_empty_l, ?str_int_eqb;
                              repeat case_bool_decide; done|]);
  done.

Lemma index_of_own_block (c : Z) (j : nat) (name : string) :
  category_columns c !! j = Some name →
  index_of name (category_columns c) = Some j.
Proof. intros Hj. block_names j. Qed.

Lemma index_of_other_block (c c' : Z) (j : nat) (name : string) :
  c ≠ c' →
  category_columns c !! j = Some name →
  index_of name (category_columns c') = None.
Proof. intros Hne Hj. block_names j. Qed.

Lemma index_of_fixed_columns (c : Z) (j : nat) (name : string) :
  category_columns c !! j = Some name →
  index_of name fixed_columns = None.
Proof. intros Hj. block_names j. Qed.

Lemma index_of_lt (x : string) (l : list string) (i : nat) :
  index_of x l = Some i → (i < length l)%nat.
Proof.
  revert i. induction l as [|y l IH]; intros i; simpl; [done|].
  destruct (String.eqb x y); [intros [= <-]; lia|].
  destruct (index_of x l) as [i'|]; [|done].
  intros [= <-]. specialize (IH i' eq_refl). lia.
Qed.

Lemma category_columns_length (c : Z) : length (category_columns c) = 10%nat.
Proof. done. Qed.

Section fields.
Context `{NumPy}.
Variable category_ids : list Z.
Variable annotations : list annotation.

(** A fixed column is read at its position among the 36 leading entries. *)
Lemma field_fixed (fixed blocks : list cell) (name : string) (i : nat) :
  index_of name fixed_columns = Some i →
  length fixed = 36%nat →
  field category_ids (fixed ++ blocks) name = fixed !! i.
Proof.
  intros Hi Hlen. unfold field.
  rewrite header_columns_eq, index_of_app, Hi. simpl.
  apply index_of_lt in Hi. apply lookup_app_l.
  rewrite Hlen. by change (length fixed_columns) with 36%nat in Hi.
Qed.

Lemma index_of_blocks (cids : list Z) (c : Z) (j : nat) (name : string) :
  c ∈ cids →
  category_columns c !! j = Some name →
  ∃ i, index_of name (concat (category_columns <$> cids)) = Some i ∧
       concat (block annotations <$> cids) !! i = block annotations c !! j.
Proof.
  intros Hin Hj.
  assert (j < 10)%nat as Hj10.
  { apply lookup_lt_Some in Hj. by rewrite category_columns_length in Hj. }
  induction cids as [|c' cids IH]; [by apply elem_of_nil in Hin|].
  rewrite !fmap_cons. cbn [concat]. rewrite index_of_app.
  destruct (decide (c = c')) as [<-|Hne].
  - exists j. rewrite (index_of_own_block c j name Hj). split; [done|].
    apply lookup_app_l. by rewrite block_length.
  - apply elem_of_cons in Hin as [?|Hin]; [done|].
    destruct (IH Hin) as (i & Hi & Hlook).
    exists (10 + i)%nat.
    rewrite (index_of_other_block c c' j name Hne Hj), Hi. split; [done|].
    rewrite lookup_app_r by (rewrite block_length; lia).
    rewrite block_length. by replace (10 + i - 10)%nat with i by lia.
Qed.

(** The field under the [j]-th column name of category [c] is the [j]-th
    entry of the block of [c]. *)
Lemma field_block (fixed : list cell) (c : Z) (j : nat) (name : string) :
  c ∈ category_ids →
  category_columns c !! j = Some name →
  length fixed = 36%nat →
  field category_ids (fixed ++ concat (block annotations <$> category_ids)) name
  = block annotations c !! j.
Proof.
  intros Hin Hj Hlen. unfold field.
  rewrite header_columns_eq, index_of_app, (index_of_fixed_columns c j name Hj).
  destruct (index_of_blocks category_ids c j name Hin Hj) as (i & -> & Hlook).
  change (length fixed_columns) with 36%nat.
  cbn [fmap option_fmap option_map mbind option_bind].
  rewrite lookup_app_r by lia.
  rewrite Hlen. by replace (36 + i - 36)%nat with i by lia.
Qed.

End fields.

(* ================================================================== *)
(** * Counting instances *)
(* ================================================================== *)

(** The sum of a list of Python [int]s. *)
Definition sum_ints (l : list Z) : Z := foldr Z.add 0 l.

Lemma sum_ints_plus {A} (f g : A → Z) (l : list A) :
  sum_ints ((λ x, f x + g x) <$> l) = sum_ints (f <$> l) + sum_ints (g <$> l).
Proof.
  induction l as [|x l IH]; [done|].
  rewrite !fmap_cons. unfold sum_ints in *. cbn [foldr]. lia.
Qed.

Lemma sum_ints_indicator (x : Z) (l : list Z) :
  NoDup l →
  sum_ints ((λ c, if decide (x = c) then 1 else 0) <$> l)
  = if decide (x ∈ l) then 1 else 0.
Proof.
  induction l as [|c l IH]; [done|].
  intros [Hnotin Hnodup]%NoDup_cons.
  rewrite fmap_cons. unfold sum_ints in *. cbn [foldr]. rewrite IH by done.
  repeat case_decide; subst; try lia; exfalso; set_solver.
Qed.

Lemma group_cons (a : annotation) (l : list annotation) (cid : Z) :
  len (group (a :: l) cid)
  = (if decide (category_id a = cid) then 1 else 0) + len (group l cid).
Proof.
  unfold group, len. rewrite filter_cons.
  destruct (decide (category_id a = cid)); simpl; lia.
Qed.

(** Every annotation of a known category is counted in exactly one of the
    distinct categories. *)
Lemma sum_group_counts (cids : list Z) (l : list annotation) :
  NoDup cids →
  (∀ a, a ∈ l → category_id a ∈ cids) →
  sum_ints ((λ c, len (group l c)) <$> cids) = len l.
Proof.
  intros Hnodup. induction l as [|a l IH]; intros Hknown.
  - unfold group. simpl. clear. induction cids; [done|]. by rewrite fmap_cons.
  - erewrite (list_fmap_ext _ (λ c, (if decide (category_id a = c) then 1 else 0)
                                      + len (group l c))); [|intros; apply group_cons].
    rewrite (sum_ints_plus (λ c, if decide (category_id a = c) then 1 else 0)).
    rewrite sum_ints_indicator by done.
    rewrite decide_True by apply Hknown, list_elem_of_here.
    rewrite IH by (intros; by apply Hknown, list_elem_of_further).
    unfold len. simpl. lia.
Qed.

Section counting.
Context `{NumPy}.

Lemma fixed_row_length filename annotations c0 rest :
  length (fixed_row filename annotations c0 rest) = 36%nat.
Proof. done. Qed.

(** With at least one annotation, all of known categories, there is a
    nonempty category. *)
Lemma known_categories_nonempty (category_ids : list Z) (annotations : list annotation) :
  annotations ≠ [] →
  (∀ a, a ∈ annotations → category_id a ∈ category_ids) →
  ∃ c0 rest, nonempty_category_ids category_ids annotations = c0 :: rest.
Proof.
  intros Hne Hknown. destruct annotations as [|a l]; [done|].
  pose proof (nonempty_category_ids_of category_ids (a :: l) a
                (list_elem_of_here _ _) (Hknown a (list_elem_of_here _ _))) as Hin.
  destruct (nonempty_category_ids category_ids (a :: l)) as [|c0 rest]; [|eauto].
  by apply elem_of_nil in Hin.
Qed.

(** C1. For every category-id list C (sorted or not) and every non-empty
    annotation list A of one image whose category ids are all members of C,
    create_index_row produces a row whose NumInstances field is |A|, and the
    NumInstances_<c> fields, summed over the category ids c of C (each id
    once), give |A|; when no id is repeated in C this is the sum over C
    itself. *)
Theorem num_instances_is_sum_of_category_counts
    (category_ids : list Z) (filename : string) (annotations : list annotation) :
  annotations ≠ [] →
  (∀ a, a ∈ annotations → category_id a ∈ category_ids) →
  ∃ row,
    index_row category_ids filename annotations = Ok row ∧
    field category_ids row "NumInstances" = Some (CInt (len annotations)) ∧
    ∃ count : Z → Z,
      (∀ c, c ∈ category_ids →
         field category_ids row ("NumInstances_" +:+ str_int c) = Some (CInt (count c))) ∧
      sum_ints (count <$> remove_dups category_ids) = len annotations ∧
      (NoDup category_ids → sum_ints (count <$> category_ids) = len annotations).
Proof.
  intros Hne Hknown.
  destruct (known_categories_nonempty _ _ Hne Hknown) as (c0 & rest & Hcats).
  eexists. split; [by apply index_row_Ok|].
  split; [by rewrite (field_fixed _ _ _ "NumInstances" 1 eq_refl (fixed_row_length _ _ _ _))|].
  exists (λ c, len (group annotations c)). split; [|split].
  - intros c Hc. rewrite (field_block _ _ _ c 0 _ Hc eq_refl (fixed_row_length _ _ _ _)).
    unfold block. by case_bool_decide.
  - apply sum_group_counts; [apply NoDup_remove_dups|].
    intros a Ha. by apply elem_of_remove_dups, Hknown.
  - intros Hnodup. by apply sum_group_counts.
Qed.

End counting.

(** The instance for the examples: three instances of category 1 and four
    of category 3, all of them among the categories 1, 2 and 3. *)
Lemma Has13_known : ∀ a, a ∈ Has13 → category_id a ∈ [1; 2; 3].
Proof.
  intros a Ha. unfold Has13 in Ha.
  repeat (apply elem_of_cons in Ha as [->|Ha]; [simpl; by repeat constructor|]).
  by apply elem_of_nil in Ha.
Defined.

Lemma num_instances_is_sum_of_category_counts_witness :
  ∃ row,
    index_row (H:=Exact.numpy) [1; 2; 3] "Has13.png" Has13 = Ok row ∧
    field [1; 2; 3] row "NumInstances" = Some (CInt (len Has13)) ∧
    ∃ count : Z → Z,
      (∀ c, c ∈ [1; 2; 3] →
         field [1; 2; 3] row ("NumInstances_" +:+ str_int c) = Some (CInt (count c))) ∧
      sum_ints (count <$> remove_dups [1; 2; 3]) = len Has13 ∧
      (NoDup [1; 2; 3] → sum_ints (count <$> [1; 2; 3]) = len Has13).
Proof.
  apply (num_instances_is_sum_of_category_counts (H:=Exact.numpy)
           [1; 2; 3] "Has13.png" Has13); [done | exact Has13_known].
Defined.

(* ================================================================== *)
(** * When a row is produced *)
(* ================================================================== *)

Section totality.
Context `{NumPy}.

(** C7. create_index_row raises (a ValueError) on an annotation list with no
    annotation; on every annotation list with at least one annotation whose
    category ids are all in the category-id list it returns a row. *)
Theorem create_index_row_raises_only_on_empty :
  (∀ category_ids filename sep,
     create_index_row category_ids filename [] sep = Err ValueError) ∧
  (∀ category_ids filename annotations sep,
     annotations ≠ [] →
     (∀ a, a ∈ annotations → category_id a ∈ category_ids) →
     ∃ row cells,
       index_row category_ids filename annotations = Ok cells ∧
       create_index_row category_ids filename annotations sep = Ok row).
Proof.
  split.
  - intros category_ids filename sep. unfold create_index_row.
    by rewrite index_row_no_category by apply nonempty_category_ids_nil.
  - intros category_ids filename annotations sep Hne Hknown.
    destruct (known_categories_nonempty _ _ Hne Hknown) as (c0 & rest & Hcats).
    unfold create_index_row. rewrite (index_row_Ok _ _ _ c0 rest Hcats).
    simpl. eauto.
Qed.

End totality.

Lemma create_index_row_raises_only_on_empty_witness :
  ∃ row cells,
    index_row (H:=Exact.numpy) [1; 2; 3] "Has13.png" Has13 = Ok cells ∧
    create_index_row [1; 2; 3] "Has13.png" Has13 "," = Ok row.
Proof.
  apply (proj2 (create_index_row_raises_only_on_empty (H:=Exact.numpy))
           [1; 2; 3] "Has13.png" Has13 ","); [done | exact Has13_known].
Defined.

(* ================================================================== *)
(** * The block of a category without instances *)
(* ================================================================== *)

Section absent_category.
Context `{NumPy}.

(** C3. In the row create_index_row produces, the block of a category [c]
    of the category-id list that has no annotation in the image is ten
    fields (count, total/min/mean/max/stdev of area, mean of x, mean of y,
    stdev of x, stdev of y), and each of them is the integer 0: none is a
    numpy value, and building them raises nothing. *)
Theorem absent_category_block_is_zero
    (category_ids : list Z) (filename : string) (annotations : list annotation)
    (row : list cell) (c : Z) :
  index_row category_ids filename annotations = Ok row →
  c ∈ category_ids →
  group annotations c = [] →
  length (category_columns c) = 10%nat ∧
  ∀ name, name ∈ category_columns c → field category_ids row name = Some (CInt 0).
Proof.
  intros Hrow Hc Hempty. split; [done|].
  apply index_row_inv in Hrow as (c0 & rest & _ & ->).
  intros name (j & Hj)%list_elem_of_lookup.
  rewrite (field_block _ _ _ c j name Hc Hj (fixed_row_length _ _ _ _)).
  unfold block. rewrite Hempty.
  assert (j < 10)%nat as Hj10 by (by apply lookup_lt_Some in Hj).
  rewrite bool_decide_false by (unfold len; simpl; lia).
  by do 10 (destruct j as [|j]; [done|]); lia.
Qed.

End absent_category.

Lemma absent_category_block_is_zero_witness :
  ∃ row,
    index_row (H:=Exact.numpy) [1; 2; 3] "Has13.png" Has13 = Ok row ∧
    length (category_columns 2) = 10%nat ∧
    ∀ name, name ∈ category_columns 2 → field [1; 2; 3] row name = Some (CInt 0).
Proof.
  eexists. split; [reflexivity|].
  apply (absent_category_block_is_zero (H:=Exact.numpy) [1; 2; 3] "Has13.png" Has13);
    [reflexivity | by repeat constructor | reflexivity].
Defined.

(* ================================================================== *)
(** * Extremal values and their categories *)
(* ================================================================== *)

Section attribution.
Context `{NumPy}.

(** The value column and the category column of an extremum agree: the
    value is the statistic [stat] of the category named. *)
Definition attributed (category_ids : list Z) (row : list cell)
    (value_column category_column : string) (stat : Z → cell) : Prop :=
  ∃ c, field category_ids row category_column = Some (CInt c) ∧
       field category_ids row value_column = Some (stat c).

Ltac fixed_field name i :=
  rewrite (field_fixed _ _ _ name i eq_refl (fixed_row_length _ _ _ _)).

Ltac attribution value_column i category_column j :=
  eexists; split;
  [ fixed_field category_column j; reflexivity
  | fixed_field value_column i; unfold fixed_row; cbn [lookup list_lookup];
    do 2 f_equal; symmetry;
    first [ apply (arg_max_value Z.ltb (stat_len _))
          | apply (arg_max_value num_lt (stat_sum _))
          | apply (arg_max_value num_lt (stat_min _))
          | apply (arg_max_value num_lt (stat_mean _))
          | apply (arg_max_value num_lt (stat_max _))
          | apply (arg_max_value num_lt (stat_std _))
          | apply (arg_min_value Z.ltb (stat_len _))
          | apply (arg_min_value num_lt (stat_sum _))
          | apply (arg_min_value num_lt (stat_min _))
          | apply (arg_min_value num_lt (stat_mean _))
          | apply (arg_min_value num_lt (stat_max _))
          | apply (arg_min_value num_lt (stat_std _)) ] ].

(** C10. In the row create_index_row produces, for each of count, total,
    min, mean, max and stdev of area, the Highest_* field is that statistic
    of the annotations of the category in CategoryOf_Highest_*, and the
    Lowest_* field is that statistic of the annotations of the category in
    CategoryOf_Lowest_*. *)
Theorem extrema_agree_with_their_categories
    (category_ids : list Z) (filename : string) (annotations : list annotation)
    (row : list cell) :
  index_row category_ids filename annotations = Ok row →
  let group_areas c := area <$> group annotations c in
  let agree := attributed category_ids row in
  agree "Highest_NumInstances" "CategoryOf_Highest_NumInstances"
        (λ c, CInt (len (group annotations c))) ∧
  agree "Highest_TotalArea" "CategoryOf_Highest_TotalArea"
        (λ c, CNum (np_sum (group_areas c))) ∧
  agree "Highest_MinArea" "CategoryOf_Highest_MinArea"
        (λ c, CNum (np_min (group_areas c))) ∧
  agree "Highest_MeanArea" "CategoryOf_Highest_MeanArea"
        (λ c, CNum (np_mean (group_areas c))) ∧
  agree "Highest_MaxArea" "CategoryOf_Highest_MaxArea"
        (λ c, CNum (np_max (group_areas c))) ∧
  agree "Highest_StdevArea" "CategoryOf_Highest_StdevArea"
        (λ c, CNum (np_std (group_areas c))) ∧
  agree "Lowest_NumInstances" "CategoryOf_Lowest_NumInstances"
        (λ c, CInt (len (group annotations c))) ∧
  agree "Lowest_TotalArea" "CategoryOf_Lowest_TotalArea"
        (λ c, CNum (np_sum (group_areas c))) ∧
  agree "Lowest_MinArea" "CategoryOf_Lowest_MinArea"
        (λ c, CNum (np_min (group_areas c))) ∧
  agree "Lowest_MeanArea" "CategoryOf_Lowest_MeanArea"
        (λ c, CNum (np_mean (group_areas c))) ∧
  agree "Lowest_MaxArea" "CategoryOf_Lowest_MaxArea"
        (λ c, CNum (np_max (group_areas c))) ∧
  agree "Lowest_StdevArea" "CategoryOf_Lowest_StdevArea"
        (λ c, CNum (np_std (group_areas c))).
Proof.
  intros (c0 & rest & _ & ->)%index_row_inv group_areas agree.
  subst group_areas agree. unfold attributed.
  repeat split.
  - attribution "Highest_NumInstances" 12%nat "CategoryOf_Highest_NumInstances" 24%nat.
  - attribution "Highest_TotalArea" 13%nat "CategoryOf_Highest_TotalArea" 25%nat.
  - attribution "Highest_MinArea" 14%nat "CategoryOf_Highest_MinArea" 26%nat.
  - attribution "Highest_MeanArea" 15%nat "CategoryOf_Highest_MeanArea" 27%nat.
  - attribution "Highest_MaxArea" 16%nat "CategoryOf_Highest_MaxArea" 28%nat.
  - attribution "Highest_StdevArea" 17%nat "CategoryOf_Highest_StdevArea" 29%nat.
  - attribution "Lowest_NumInstances" 18%nat "CategoryOf_Lowest_NumInstances" 30%nat.
  - attribution "Lowest_TotalArea" 19%nat "CategoryOf_Lowest_TotalArea" 31%nat.
  - attribution "Lowest_MinArea" 20%nat "CategoryOf_Lowest_MinArea" 32%nat.
  - attribution "Lowest_MeanArea" 21%nat "CategoryOf_Lowest_MeanArea" 33%nat.
  - attribution "Lowest_MaxArea" 22%nat "CategoryOf_Lowest_MaxArea" 34%nat.
  - attribution "Lowest_StdevArea" 23%nat "CategoryOf_Lowest_StdevArea" 35%nat.
Qed.

End attribution.

Lemma extrema_agree_with_their_categories_witness :
  ∃ row,
    index_row (H:=Exact.numpy) [1; 2; 3] "Has13.png" Has13 = Ok row ∧
    attributed [1; 2; 3] row "Highest_TotalArea" "CategoryOf_Highest_TotalArea"
      (λ c, CNum (np_sum (area <$> group Has13 c))) ∧
    attributed [1; 2; 3] row "Lowest_StdevArea" "CategoryOf_Lowest_StdevArea"
      (λ c, CNum (np_std (area <$> group Has13 c))).
Proof.
  eexists. split; [reflexivity|].
  pose proof (extrema_agree_with_their_categories (H:=Exact.numpy)
                [1; 2; 3] "Has13.png" Has13 _ eq_refl) as Hall.
  cbv zeta in Hall. split; [apply Hall | apply Hall].
Defined.

(* ================================================================== *)
(** * The order of the exact scalars *)
(* ================================================================== *)

Lemma Exact_lt_spec (a b : Exact.scalar) :
  Exact.lt a b = true ↔ (Exact.signed_square a < Exact.signed_square b)%Q.
Proof.
  unfold Exact.lt. rewrite Qlt_alt.
  by destruct (Exact.signed_square a ?= Exact.signed_square b)%Q.
Qed.

Lemma Exact_lt_false (a b : Exact.scalar) :
  Exact.lt a b = false ↔ (Exact.signed_square b <= Exact.signed_square a)%Q.
Proof.
  rewrite <- not_true_iff_false, Exact_lt_spec. split.
  - apply Qnot_lt_le.
  - apply Qle_not_lt.
Qed.

#[global] Instance Exact_order : @NumPyOrder Exact.numpy.
Proof.
  split; simpl.
  - intros a. apply Exact_lt_false, Qle_refl.
  - intros a b c. rewrite !Exact_lt_spec. apply Qlt_trans.
  - intros a b c. rewrite !Exact_lt_spec. intros Hab.
    destruct (Qlt_le_dec (Exact.signed_square a) (Exact.signed_square c)) as [?|Hca].
    + by left.
    + right. by apply Qle_lt_trans with (Exact.signed_square a).
  - done.
Qed.

(* ================================================================== *)
(** * The first extremal category *)
(* ================================================================== *)

(** A comparison that is a strict weak order. *)
Record strict_weak_order {V} (lt : V → V → bool) : Prop := {
  swo_irrefl : ∀ a, lt a a = false;
  swo_trans : ∀ a b c, lt a b = true → lt b c = true → lt a c = true;
  swo_cotrans : ∀ a b c, lt a b = true → lt a c = true ∨ lt c b = true;
}.

(** [m] is the first item of the scan [items] with the greatest value: no
    item has a greater value, and every item scanned before [m] has a
    strictly smaller one. *)
Definition first_greatest {V} (lt : V → V → bool) (k : Z → V)
    (items : list Z) (m : Z) : Prop :=
  (∃ before after, items = before ++ m :: after ∧
     ∀ c, c ∈ before → lt (k c) (k m) = true) ∧
  (∀ c, c ∈ items → lt (k m) (k c) = false).

(** [m] is the first item of the scan with the least value. *)
Definition first_least {V} (lt : V → V → bool) (k : Z → V)
    (items : list Z) (m : Z) : Prop :=
  (∃ before after, items = before ++ m :: after ∧
     ∀ c, c ∈ before → lt (k m) (k c) = true) ∧
  (∀ c, c ∈ items → lt (k c) (k m) = false).

Lemma Z_ltb_swo : strict_weak_order Z.ltb.
Proof. split; intros; rewrite ?Z.ltb_lt, ?Z.ltb_ge in *; lia. Qed.

Lemma num_lt_swo `{NumPyOrder} : strict_weak_order num_lt.
Proof.
  split; [apply num_lt_irrefl | apply num_lt_trans | apply num_lt_cotrans].
Qed.

Lemma flip_swo {V} (lt : V → V → bool) :
  strict_weak_order lt → strict_weak_order (flip lt).
Proof.
  intros [Hi Ht Hc]. split; unfold flip.
  - done.
  - intros a b c Hab Hbc. by apply (Ht c b a).
  - intros a b c Hab. destruct (Hc b a c Hab); auto.
Qed.

Lemma swo_asym {V} (lt : V → V → bool) (a b : V) :
  strict_weak_order lt → lt a b = true → lt b a = false.
Proof.
  intros [Hi Ht _] Hab. destruct (lt b a) eqn:Hba; [|done].
  by rewrite <- (Hi a), (Ht a b a).
Qed.

Lemma arg_max_cons {V} (lt : V → V → bool) (k : Z → V) (c x : Z) (rest : list Z) :
  arg_max lt k c (x :: rest) = arg_max lt k (if lt (k c) (k x) then x else c) rest.
Proof.
  unfold arg_max. rewrite fmap_cons, scan_max_cons.
  change (by_key lt (c, k c) (x, k x)) with (lt (k c) (k x)).
  by destruct (lt (k c) (k x)).
Qed.

(** [min] is [max] for the converse comparison. *)
Lemma arg_min_flip {V} (lt : V → V → bool) (k : Z → V) (c : Z) (rest : list Z) :
  arg_min lt k c rest = arg_max (flip lt) k c rest.
Proof. done. Qed.

Section first_extremum.
Context {V : Type}.
Variable lt : V → V → bool.
Variable k : Z → V.
Hypothesis Hswo : strict_weak_order lt.

(** The invariant of the scan: [cur] is the first item with the greatest
    value among those scanned, [pre] the items before it, [mid] the items
    scanned since. *)
Lemma arg_max_scan (rest pre mid : list Z) (cur : Z) :
  (∀ c, c ∈ pre → lt (k c) (k cur) = true) →
  (∀ c, c ∈ mid → lt (k cur) (k c) = false) →
  ∃ before after,
    pre ++ cur :: mid ++ rest = before ++ arg_max lt k cur rest :: after ∧
    (∀ c, c ∈ before → lt (k c) (k (arg_max lt k cur rest)) = true) ∧
    (∀ c, c ∈ after → lt (k (arg_max lt k cur rest)) (k c) = false).
Proof.
  revert pre mid cur. induction rest as [|x rest IH]; intros pre mid cur Hpre Hmid.
  - exists pre, mid. by rewrite app_nil_r.
  - rewrite arg_max_cons. destruct (lt (k cur) (k x)) eqn:Hx.
    + destruct (IH (pre ++ cur :: mid) [] x) as (before & after & Heq & Hb & Ha).
      * intros c [Hc|Hc]%elem_of_app; [|apply elem_of_cons in Hc as [->|Hc]].
        -- by apply (swo_trans lt Hswo _ (k cur)); [apply Hpre|].
        -- done.
        -- destruct (swo_cotrans lt Hswo _ _ (k c) Hx) as [Hlt|Hlt]; [|done].
           by rewrite (Hmid c Hc) in Hlt.
      * by intros c ?%elem_of_nil.
      * exists before, after. split; [|done].
        rewrite <- Heq. by rewrite <- !app_assoc.
    + destruct (IH pre (mid ++ [x]) cur) as (before & after & Heq & Hb & Ha).
      * done.
      * intros c [Hc|Hc]%elem_of_app; [by apply Hmid|].
        by apply list_elem_of_singleton in Hc as ->.
      * exists before, after. split; [|done].
        rewrite <- Heq. by rewrite <- !app_assoc.
Qed.

Lemma arg_max_first_greatest (c0 : Z) (rest : list Z) :
  first_greatest lt k (c0 :: rest) (arg_max lt k c0 rest).
Proof.
  destruct (arg_max_scan rest [] [] c0) as (before & after & Heq & Hb & Ha);
    [by intros c ?%elem_of_nil | by intros c ?%elem_of_nil |].
  simpl in Heq. split; [eauto|].
  intros c Hc. rewrite Heq in Hc.
  apply elem_of_app in Hc as [Hc|Hc]; [|apply elem_of_cons in Hc as [->|Hc]].
  - by apply (swo_asym lt), Hb.
  - apply (swo_irrefl lt Hswo).
  - by apply Ha.
Qed.

End first_extremum.

Lemma arg_min_first_least {V} (lt : V → V → bool) (k : Z → V) (c0 : Z) (rest : list Z) :
  strict_weak_order lt →
  first_least lt k (c0 :: rest) (arg_min lt k c0 rest).
Proof.
  intros Hswo. rewrite arg_min_flip.
  apply (arg_max_first_greatest (flip lt) k (flip_swo lt Hswo) c0 rest).
Qed.

Lemma StronglySorted_filter {A} (R : relation A) (P : A → Prop)
    `{∀ x, Decision (P x)} (l : list A) :
  StronglySorted R l → StronglySorted R (filter P l).
Proof.
  induction 1 as [|x l Hl IH Hall]; [constructor|].
  rewrite filter_cons. case_decide; [|done].
  constructor; [done|]. apply Forall_forall. intros y Hy.
  apply list_elem_of_filter in Hy as [_ Hy].
  by apply (proj1 (Forall_forall _ _) Hall).
Qed.

(** The nonempty categories are scanned in the order of the category-id
    list: in ascending id order when that list is sorted. *)
Lemma nonempty_category_ids_sorted (category_ids : list Z) (annotations : list annotation) :
  Sorted Z.le category_ids →
  StronglySorted Z.le (nonempty_category_ids category_ids annotations).
Proof.
  intros Hsorted. apply StronglySorted_filter, Sorted_StronglySorted; [|done].
  intros x y z. apply Z.le_trans.
Qed.

Section first_categories.
Context `{NumPyOrder}.

(** The field [column] of the row names the first category with the
    greatest (least) value of the statistic [k], in the scan of the
    nonempty categories. *)
Definition names_first_greatest {V} (category_ids : list Z) (annotations : list annotation)
    (row : list cell) (column : string) (lt : V → V → bool) (k : Z → V) : Prop :=
  ∃ m, field category_ids row column = Some (CInt m) ∧
       first_greatest lt k (nonempty_category_ids category_ids annotations) m.

Definition names_first_least {V} (category_ids : list Z) (annotations : list annotation)
    (row : list cell) (column : string) (lt : V → V → bool) (k : Z → V) : Prop :=
  ∃ m, field category_ids row column = Some (CInt m) ∧
       first_least lt k (nonempty_category_ids category_ids annotations) m.

Ltac first_category column i :=
  eexists; split;
  [ rewrite (field_fixed _ _ _ column i eq_refl (fixed_row_length _ _ _ _));
    reflexivity
  | first [ apply arg_max_first_greatest | apply arg_min_first_least ];
    first [ apply Z_ltb_swo | apply num_lt_swo ] ].

(** C2. When the comparison of numpy scalars is a strict weak order (no
    NaN), and the category-id list is sorted in ascending order, the
    nonempty categories are scanned in ascending id order, and in the row
    create_index_row produces, for each of count, sum, min, mean, max and
    stdev of area, CategoryOf_Highest_* is the first category of that scan
    with the greatest value of the statistic (none has a greater value,
    every category scanned before it has a strictly smaller one) and
    CategoryOf_Lowest_* is the first category with the least value. *)
Theorem category_of_extremum_is_first_in_ascending_order
    (category_ids : list Z) (filename : string) (annotations : list annotation)
    (row : list cell) :
  Sorted Z.le category_ids →
  index_row category_ids filename annotations = Ok row →
  let group_areas c := area <$> group annotations c in
  let highest := @names_first_greatest in
  let lowest := @names_first_least in
  StronglySorted Z.le (nonempty_category_ids category_ids annotations) ∧
  highest _ category_ids annotations row "CategoryOf_Highest_NumInstances"
          Z.ltb (λ c, len (group annotations c)) ∧
  highest _ category_ids annotations row "CategoryOf_Highest_TotalArea"
          num_lt (λ c, np_sum (group_areas c)) ∧
  highest _ category_ids annotations row "CategoryOf_Highest_MinArea"
          num_lt (λ c, np_min (group_areas c)) ∧
  highest _ category_ids annotations row "CategoryOf_Highest_MeanArea"
          num_lt (λ c, np_mean (group_areas c)) ∧
  highest _ category_ids annotations row "CategoryOf_Highest_MaxArea"
          num_lt (λ c, np_max (group_areas c)) ∧
  highest _ category_ids annotations row "CategoryOf_Highest_StdevArea"
          num_lt (λ c, np_std (group_areas c)) ∧
  lowest _ category_ids annotations row "CategoryOf_Lowest_NumInstances"
         Z.ltb (λ c, len (group annotations c)) ∧
  lowest _ category_ids annotations row "CategoryOf_Lowest_TotalArea"
         num_lt (λ c, np_sum (group_areas c)) ∧
  lowest _ category_ids annotations row "CategoryOf_Lowest_MinArea"
         num_lt (λ c, np_min (group_areas c)) ∧
  lowest _ category_ids annotations row "CategoryOf_Lowest_MeanArea"
         num_lt (λ c, np_mean (group_areas c)) ∧
  lowest _ category_ids annotations row "CategoryOf_Lowest_MaxArea"
         num_lt (λ c, np_max (group_areas c)) ∧
  lowest _ category_ids annotations row "CategoryOf_Lowest_StdevArea"
         num_lt (λ c, np_std (group_areas c)).
Proof.
  intros Hsorted (c0 & rest & Hne & ->)%index_row_inv group_areas highest lowest.
  subst group_areas highest lowest.
  split; [by apply nonempty_category_ids_sorted|].
  unfold names_first_greatest, names_first_least. rewrite Hne.
  repeat split.
  - first_category "CategoryOf_Highest_NumInstances" 24%nat.
  - first_category "CategoryOf_Highest_TotalArea" 25%nat.
  - first_category "CategoryOf_Highest_MinArea" 26%nat.
  - first_category "CategoryOf_Highest_MeanArea" 27%nat.
  - first_category "CategoryOf_Highest_MaxArea" 28%nat.
  - first_category "CategoryOf_Highest_StdevArea" 29%nat.
  - first_category "CategoryOf_Lowest_NumInstances" 30%nat.
  - first_category "CategoryOf_Lowest_TotalArea" 31%nat.
  - first_category "CategoryOf_Lowest_MinArea" 32%nat.
  - first_category "CategoryOf_Lowest_MeanArea" 33%nat.
  - first_category "CategoryOf_Lowest_MaxArea" 34%nat.
  - first_category "CategoryOf_Lowest_StdevArea" 35%nat.
Qed.

End first_categories.

Lemma category_of_extremum_is_first_in_ascending_order_witness :
  ∃ row,
    index_row (H:=Exact.numpy) [1; 2; 3] "Has13.png" Has13 = Ok row ∧
    StronglySorted Z.le (nonempty_category_ids [1; 2; 3] Has13) ∧
    names_first_greatest [1; 2; 3] Has13 row "CategoryOf_Highest_TotalArea"
      num_lt (λ c, np_sum (area <$> group Has13 c)) ∧
    names_first_least [1; 2; 3] Has13 row "CategoryOf_Lowest_NumInstances"
      Z.ltb (λ c, len (group Has13 c)).
Proof.
  eexists. split; [reflexivity|].
  pose proof (category_of_extremum_is_first_in_ascending_order
                (H:=Exact.numpy) [1; 2; 3] "Has13.png" Has13 _
                ltac:(by repeat constructor) eq_refl) as Hall.
  cbv zeta in Hall. split; [apply Hall|]. split; apply Hall.
Defined.

Section total_area_extrema.
Context `{NumPyOrder}.

(** C6. When the comparison of numpy scalars is a strict weak order and at
    least two categories of the category-id list have an instance in the
    image, create_index_row produces a row in which Highest_TotalArea >=
    Lowest_TotalArea, and CategoryOf_Highest_TotalArea and
    CategoryOf_Lowest_TotalArea are categories of the list with at least one
    instance in the image. *)
Theorem highest_total_area_at_least_lowest
    (category_ids : list Z) (filename : string) (annotations : list annotation) :
  (2 ≤ length (nonempty_category_ids category_ids annotations))%nat →
  ∃ row highest lowest category_of_highest category_of_lowest,
    index_row category_ids filename annotations = Ok row ∧
    field category_ids row "Highest_TotalArea" = Some (CNum highest) ∧
    field category_ids row "Lowest_TotalArea" = Some (CNum lowest) ∧
    num_le lowest highest = true ∧
    field category_ids row "CategoryOf_Highest_TotalArea"
      = Some (CInt category_of_highest) ∧
    field category_ids row "CategoryOf_Lowest_TotalArea"
      = Some (CInt category_of_lowest) ∧
    (category_of_highest ∈ category_ids ∧ group annotations category_of_highest ≠ []) ∧
    (category_of_lowest ∈ category_ids ∧ group annotations category_of_lowest ≠ []).
Proof.
  intros Htwo.
  destruct (nonempty_category_ids category_ids annotations) as [|c0 rest] eqn:Hne;
    [simpl in Htwo; lia|].
  pose (k := stat_sum annotations).
  exists (fixed_row filename annotations c0 rest
            ++ concat (block annotations <$> category_ids)),
         (scan_max num_lt (k c0) (k <$> rest)), (scan_min num_lt (k c0) (k <$> rest)),
         (arg_max num_lt k c0 rest), (arg_min num_lt k c0 rest).
  split; [by apply index_row_Ok|].
  split; [by rewrite (field_fixed _ _ _ "Highest_TotalArea" 13 eq_refl
                        (fixed_row_length _ _ _ _))|].
  split; [by rewrite (field_fixed _ _ _ "Lowest_TotalArea" 19 eq_refl
                        (fixed_row_length _ _ _ _))|].
  split.
  { rewrite num_le_not_lt, <- arg_max_value, <- arg_min_value.
    destruct (arg_max_first_greatest num_lt k num_lt_swo c0 rest) as [_ Hmax].
    by rewrite Hmax by apply arg_min_elem. }
  split; [by rewrite (field_fixed _ _ _ "CategoryOf_Highest_TotalArea" 25 eq_refl
                        (fixed_row_length _ _ _ _))|].
  split; [by rewrite (field_fixed _ _ _ "CategoryOf_Lowest_TotalArea" 31 eq_refl
                        (fixed_row_length _ _ _ _))|].
  split; apply nonempty_category_ids_spec; rewrite Hne;
    [apply arg_max_elem | apply arg_min_elem].
Qed.

End total_area_extrema.

Lemma highest_total_area_at_least_lowest_witness :
  ∃ row highest lowest category_of_highest category_of_lowest,
    index_row (H:=Exact.numpy) [1; 2; 3] "Has13.png" Has13 = Ok row ∧
    field [1; 2; 3] row "Highest_TotalArea" = Some (CNum highest) ∧
    field [1; 2; 3] row "Lowest_TotalArea" = Some (CNum lowest) ∧
    num_le lowest highest = true ∧
    field [1; 2; 3] row "CategoryOf_Highest_TotalArea" = Some (CInt category_of_highest) ∧
    field [1; 2; 3] row "CategoryOf_Lowest_TotalArea" = Some (CInt category_of_lowest) ∧
    (category_of_highest ∈ [1; 2; 3] ∧ group Has13 category_of_highest ≠ []) ∧
    (category_of_lowest ∈ [1; 2; 3] ∧ group Has13 category_of_lowest ≠ []).
Proof.
  apply (highest_total_area_at_least_lowest (H:=Exact.numpy) [1; 2; 3] "Has13.png" Has13).
  vm_compute. lia.
Defined.

(* ================================================================== *)
(** * The index queries *)
(* ================================================================== *)

(** The items a boolean selector marks. *)
Definition marked {A} (l : list A) (selector : list bool) : list A :=
  (filter (λ p, p.2 = true) (zip l selector)).*1.

Lemma marked_fmap {A B} (g : A → B) (l : list A) (selector : list bool) :
  marked (g <$> l) selector = g <$> marked l selector.
Proof.
  unfold marked. revert selector.
  induction l as [|x l IH]; intros [|b selector]; try done.
  rewrite fmap_cons. cbn [zip zip_with]. destruct b.
  - rewrite !filter_cons_True by done. rewrite !fmap_cons. cbn [fst]. by rewrite IH.
  - rewrite !filter_cons_False by done. apply IH.
Qed.

Lemma marked_by (P : value → bool) (l : list value) :
  marked l (P <$> l) = filter (λ v, P v = true) l.
Proof.
  unfold marked. induction l as [|x l IH]; [done|].
  rewrite fmap_cons. cbn [zip zip_with]. destruct (P x) eqn:HP.
  - rewrite !filter_cons_True by done. rewrite fmap_cons. cbn [fst]. by rewrite IH.
  - rewrite !filter_cons_False by (simpl; congruence). apply IH.
Qed.

(** The column of a selection is the selection of the column. *)
Lemma series_select (df : DataFrame) (selector : list bool) (name : string) :
  series (select df selector) name = (λ s, marked s selector) <$> series df name.
Proof.
  unfold series, select. simpl. destruct (index_of name (columns df)); [|done].
  simpl. f_equal. symmetry. apply marked_fmap.
Qed.

Lemma selected_images_by (df : DataFrame) (ids : list value) (P : value → bool) :
  series df "ImageID" = Some ids →
  selected_images df (P <$> ids)
  = Ok (list_to_set (filter (λ v, P v = true) ids)).
Proof.
  intros Hids. unfold selected_images, getattr_ImageID.
  rewrite series_select, Hids. simpl. by rewrite marked_by.
Qed.

Lemma filter_none {A} (P : A → Prop) `{∀ x, Decision (P x)} (l : list A) :
  (∀ x, x ∈ l → ¬ P x) → filter P l = [].
Proof.
  induction l as [|x l IH]; intros Hl; [done|].
  rewrite filter_cons_False by apply Hl, list_elem_of_here.
  apply IH. intros; by apply Hl, list_elem_of_further.
Qed.

Lemma filter_all {A} (P : A → Prop) `{∀ x, Decision (P x)} (l : list A) :
  (∀ x, x ∈ l → P x) → filter P l = l.
Proof.
  induction l as [|x l IH]; intros Hl; [done|].
  rewrite filter_cons_True by apply Hl, list_elem_of_here.
  f_equal. apply IH. intros; by apply Hl, list_elem_of_further.
Qed.

Lemma ne_empty_true (v : value) : ne_empty v = true ↔ v ≠ VStr "".
Proof.
  destruct v as [s| | |]; simpl; try (split; done).
  rewrite bool_decide_eq_true. split; [congruence|]. intros Hs ->. done.
Qed.

(** C4. On a loaded table, get_images_with_classes of the empty class list
    is the empty set, and get_images_with_bounded_num_instances of the
    empty class list is the set get_images returns, whatever the lower and
    upper bounds, present or absent. *)
Theorem empty_class_list_queries (self : COCOIndex) :
  loaded self →
  ∃ images,
    get_images self = Ok images ∧
    get_images_with_classes self [] = Ok ∅ ∧
    ∀ lower upper : option Z,
      get_images_with_bounded_num_instances self [] lower upper = Ok images.
Proof.
  intros (df & ids & Hdf & Hids & Hempty).
  exists (list_to_set ids).
  unfold get_images, get_images_with_classes, get_images_with_bounded_num_instances,
    _false_selector, _true_selector, table, getattr_ImageID.
  rewrite Hdf. simpl. rewrite Hids. simpl. split; [done|]. split.
  - rewrite (selected_images_by df ids eq_empty Hids).
    rewrite filter_none; [done|].
    intros v Hv. unfold eq_empty. rewrite negb_true_iff, <- not_true_iff_false.
    rewrite ne_empty_true. intros Hne. apply Hne. intros ->. done.
  - intros lower upper. rewrite (selected_images_by df ids ne_empty Hids).
    rewrite filter_all; [done|].
    intros v Hv. apply ne_empty_true. by intros ->.
Qed.

Lemma test_index_loaded : loaded test_index.
Proof.
  eexists _, _. split; [reflexivity|]. split; [reflexivity|].
  intros Hin. repeat (apply elem_of_cons in Hin as [Hin|Hin]; [done|]).
  by apply elem_of_nil in Hin.
Defined.

Lemma empty_class_list_queries_witness :
  ∃ images,
    get_images test_index = Ok images ∧
    get_images_with_classes test_index [] = Ok ∅ ∧
    ∀ lower upper : option Z,
      get_images_with_bounded_num_instances test_index [] lower upper = Ok images.
Proof. exact (empty_class_list_queries test_index test_index_loaded). Defined.

(** C5. On a loaded table, after keep(S) get_images returns the
    intersection of S with the set it returned before, and after remove(S)
    it returns the set it returned before minus S. *)
Theorem keep_and_remove_images (self : COCOIndex) (image_ids : gset ImageId) :
  loaded self →
  ∃ images kept removed,
    get_images self = Ok images ∧
    keep self image_ids = Ok kept ∧
    get_images kept = Ok (image_ids ∩ images) ∧
    remove self image_ids = Ok removed ∧
    get_images removed = Ok (images ∖ image_ids).
Proof.
  intros (df & ids & Hdf & Hids & _).
  exists (list_to_set ids).
  unfold keep, remove, get_images, table, getattr_ImageID.
  rewrite Hdf. simpl. rewrite Hids. simpl. eexists _, _.
  split; [done|]. split; [done|]. split; [|split; [done|]].
  - simpl. rewrite series_select, Hids. simpl. unfold isin. rewrite marked_by.
    f_equal. apply set_eq. intros v.
    rewrite elem_of_list_to_set, list_elem_of_filter, bool_decide_eq_true.
    rewrite elem_of_intersection, elem_of_list_to_set. done.
  - simpl. rewrite series_select, Hids. simpl. unfold isin.
    rewrite <- list_fmap_compose, marked_by.
    f_equal. apply set_eq. intros v.
    rewrite elem_of_list_to_set, list_elem_of_filter. simpl.
    rewrite negb_true_iff, bool_decide_eq_false.
    rewrite elem_of_difference, elem_of_list_to_set. tauto.
Qed.

Lemma keep_and_remove_images_witness :
  ∃ images kept removed,
    get_images test_index = Ok images ∧
    keep test_index {[VStr "Has1"; VStr "Other"]} = Ok kept ∧
    get_images kept = Ok ({[VStr "Has1"; VStr "Other"]} ∩ images) ∧
    remove test_index {[VStr "Has1"; VStr "Other"]} = Ok removed ∧
    get_images removed = Ok (images ∖ {[VStr "Has1"; VStr "Other"]}).
Proof.
  exact (keep_and_remove_images test_index {[VStr "Has1"; VStr "Other"]}
           test_index_loaded).
Defined.

(* ================================================================== *)
(** * The two builders *)
(* ================================================================== *)

(** Whatever the order in which the workers take the jobs, every pending
    job ends up finished with its own outcome, and nothing else changes. *)
Lemma run_pool_spec {J R} (f : J → R) (n : nat) :
  ∀ (picks : list nat) (pending : list (nat * J)) (finished : gmap nat R),
    (length pending ≤ n)%nat →
    NoDup pending.*1 →
    (∀ i j, (i, j) ∈ pending → run_pool f n picks pending finished !! i = Some (f j)) ∧
    (∀ i, i ∉ pending.*1 → run_pool f n picks pending finished !! i = finished !! i).
Proof.
  induction n as [|n IH]; intros picks pending finished Hlen Hnodup.
  - destruct pending; [|simpl in Hlen; lia].
    split; [by intros i j ?%elem_of_nil | done].
  - simpl. destruct pending as [|p0 pending0] eqn:Hp.
    { split; [by intros i j ?%elem_of_nil | done]. }
    rewrite <- Hp in *. assert (0 < length pending)%nat by (rewrite Hp; simpl; lia).
    set (k := (hd 0 picks `mod` length pending)%nat).
    assert (k < length pending)%nat as Hk by (apply Nat.mod_upper_bound; lia).
    destruct (lookup_lt_is_Some_2 pending k Hk) as [[i0 j0] Hk0]. rewrite Hk0.
    pose proof (delete_Permutation pending k (i0, j0) Hk0) as Hperm.
    assert (NoDup ((i0, j0) :: delete k pending).*1) as Hnodup'
      by (by rewrite <- Hperm).
    rewrite fmap_cons in Hnodup'. apply NoDup_cons in Hnodup' as [Hi0 Hrest].
    destruct (IH (tl picks) (delete k pending) (<[i0 := f j0]> finished))
      as [Hin Hout]; [|done|].
    { rewrite length_delete by eauto. lia. }
    split.
    + intros i j Hij. rewrite Hperm in Hij.
      apply elem_of_cons in Hij as [[= -> ->]|Hij]; [|by apply Hin].
      rewrite Hout by done. apply lookup_insert_eq.
    + intros i Hi. assert (i ∉ ((i0, j0) :: delete k pending).*1) as Hi'
        by (by rewrite <- Hperm).
      rewrite fmap_cons in Hi'. apply not_elem_of_cons in Hi' as [Hne Hi'].
      rewrite Hout by done. by apply lookup_insert_ne.
Qed.

Lemma omap_seq_lookup {J R} (g : nat → option R) (f : J → R) (jobs : list J) (start : nat) :
  (∀ i j, jobs !! i = Some j → g (start + i)%nat = Some (f j)) →
  omap g (seq start (length jobs)) = f <$> jobs.
Proof.
  revert start. induction jobs as [|j jobs IH]; intros start Hg; [done|].
  simpl. rewrite <- (Nat.add_0_r start) at 1. rewrite (Hg 0%nat j eq_refl).
  f_equal. apply IH. intros i j' Hi.
  replace (S start + i)%nat with (start + S i)%nat by lia. by apply Hg.
Qed.

(** [pool.imap] yields the outcomes of the jobs in the order of the jobs,
    for every order in which the workers run. *)
Lemma imap_fmap {J R} (picks : list nat) (f : J → R) (jobs : list J) :
  imap picks f jobs = f <$> jobs.
Proof.
  unfold imap. apply omap_seq_lookup. intros i j Hij. simpl.
  apply run_pool_spec.
  - by rewrite length_zip_with, length_seq, Nat.min_id.
  - rewrite fst_zip by (by rewrite length_seq). apply NoDup_seq.
  - apply list_elem_of_lookup. exists i. apply lookup_zip_with_Some.
    exists i, j. split; [done|]. split; [|done].
    apply lookup_seq. split; [done|]. by apply lookup_lt_Some in Hij.
Qed.

Lemma write_rows_Ok (fp : file) (rows : list string) :
  write_rows fp (Ok <$> rows) = (fp ++ rows, Ok ()).
Proof.
  revert fp. induction rows as [|row rows IH]; intros fp; simpl.
  - by rewrite app_nil_r.
  - by rewrite IH, <- app_assoc.
Qed.

Section builders.
Context `{NumPy}.

Lemma create_index_row_known (category_ids : list Z) (filename : string)
    (annotations : list annotation) (sep : string) :
  annotations ≠ [] →
  (∀ a, a ∈ annotations → category_id a ∈ category_ids) →
  ∃ row, create_index_row category_ids filename annotations sep = Ok row.
Proof.
  intros Hne Hknown.
  destruct (known_categories_nonempty _ _ Hne Hknown) as (c0 & rest & Hcats).
  unfold create_index_row. rewrite (index_row_Ok _ _ _ c0 rest Hcats). simpl. eauto.
Qed.

(** C8. For every list of categories and every mapping from images to
    annotation lists in which each image has an annotation and every
    category id is the id of a category, create_index_sequentially and
    create_index_multiprocessing (for every order in which the pool runs the
    jobs) both end normally and write the same header line and the same
    multiset of rows. *)
Theorem builders_write_the_same_table (picks : list nat) (categories : list category)
    (annotations_by_filename : list (string * list annotation)) (sep : string) :
  (∀ filename annotations,
     (filename, annotations) ∈ annotations_by_filename →
     annotations ≠ [] ∧ ∀ a, a ∈ annotations → category_id a ∈ id <$> categories) →
  ∃ header rows_sequential rows_pool,
    create_index_sequentially categories annotations_by_filename sep
      = (header :: rows_sequential, Ok ()) ∧
    create_index_multiprocessing picks categories annotations_by_filename sep
      = (header :: rows_pool, Ok ()) ∧
    rows_sequential ≡ₚ rows_pool.
Proof.
  intros Hitems.
  assert (∃ rows,
    (λ item : string * list annotation,
       create_index_row (sorted_ids categories) item.1 item.2 sep)
      <$> annotations_by_filename = Ok <$> rows) as [rows Hrows].
  { induction annotations_by_filename as [|[filename annotations] items IH].
    - by exists [].
    - destruct IH as [rows Hrows].
      { intros f a Hin. apply (Hitems f a). by apply list_elem_of_further. }
      destruct (Hitems filename annotations (list_elem_of_here _ _)) as [Hne Hknown].
      destruct (create_index_row_known
                  (sorted_ids categories) filename annotations sep Hne)
        as (row & Hrow).
      { intros a Ha. unfold sorted_ids. rewrite merge_sort_Permutation. by apply Hknown. }
      exists (row :: rows). rewrite !fmap_cons, Hrows. simpl. by rewrite Hrow. }
  exists (create_header_row (sorted_ids categories) sep), rows, rows.
  unfold create_index_sequentially, create_index_multiprocessing.
  rewrite imap_fmap, <- list_fmap_compose.
  change (wrapped_create_index_row ∘ _)
    with (λ item : string * list annotation,
            create_index_row (sorted_ids categories) item.1 item.2 sep).
  rewrite Hrows, write_rows_Ok. done.
Qed.

End builders.

Definition two_images : list (string * list annotation) :=
  [("Has13.png", Has13); ("Has2.png", [ann 2 7%Q])].

Lemma builders_write_the_same_table_witness :
  ∃ header rows_sequential rows_pool,
    create_index_sequentially (H:=Exact.numpy)
      [{| id := 3; name := "c" |}; {| id := 1; name := "a" |}; {| id := 2; name := "b" |}]
      two_images ","
      = (header :: rows_sequential, Ok ()) ∧
    create_index_multiprocessing (H:=Exact.numpy) [1%nat; 0%nat]
      [{| id := 3; name := "c" |}; {| id := 1; name := "a" |}; {| id := 2; name := "b" |}]
      two_images ","
      = (header :: rows_pool, Ok ()) ∧
    rows_sequential ≡ₚ rows_pool.
Proof.
  apply (builders_write_the_same_table (H:=Exact.numpy)).
  intros filename annotations Hin. unfold two_images in Hin.
  apply elem_of_cons in Hin as [[= -> ->]|Hin].
  { split; [done|]. intros a Ha. unfold Has13 in Ha.
    repeat (apply elem_of_cons in Ha as [->|Ha]; [simpl; by repeat constructor|]).
    by apply elem_of_nil in Ha. }
  apply elem_of_cons in Hin as [[= -> ->]|Hin]; [|by apply elem_of_nil in Hin].
  split; [done|]. intros a Ha.
  apply elem_of_cons in Ha as [->|Ha]; [simpl; by repeat constructor|].
  by apply elem_of_nil in Ha.
Defined.

(* ================================================================== *)
(** * The header line and the classes read back from it *)
(* ================================================================== *)

Lemma append_cons (c : ascii) (s t : string) :
  (String c s +:+ t)%string = String c (s +:+ t).
Proof. done. Qed.

Lemma string_forall_app (P : ascii → bool) (s t : string) :
  string_forall P (s +:+ t) = string_forall P s && string_forall P t.
Proof.
  induction s as [|c s IH]; [done|].
  rewrite append_cons. cbn [string_forall]. rewrite <- andb_assoc. f_equal. apply IH.
Qed.

(** ** Cutting a joined line *)

Lemma split_no_sep (sep : ascii) (s : string) :
  string_forall (λ c, negb (Ascii.eqb c sep)) s = true → split sep s = [s].
Proof.
  induction s as [|c s IH]; [done|]. simpl.
  rewrite andb_true_iff, negb_true_iff. intros [-> Hs]. by rewrite IH.
Qed.

Lemma split_app (sep : ascii) (s t : string) :
  string_forall (λ c, negb (Ascii.eqb c sep)) s = true →
  split sep (s +:+ String sep t) = s :: split sep t.
Proof.
  induction s as [|c s IH].
  - intros _. rewrite append_empty_l. cbn [split]. by rewrite Ascii.eqb_refl.
  - rewrite append_cons. cbn [split string_forall].
    rewrite andb_true_iff, negb_true_iff. intros [-> Hs]. by rewrite IH.
Qed.

(** [split] undoes [join] when no part contains the separator. *)
Lemma split_join (sep : ascii) (parts : list string) :
  parts ≠ [] →
  Forall (λ s, string_forall (λ c, negb (Ascii.eqb c sep)) s = true) parts →
  split sep (join (String sep "") parts) = parts.
Proof.
  intros Hne Hparts. unfold join.
  induction Hparts as [|s parts Hs Hparts IH]; [done|].
  destruct parts as [|s' parts].
  - simpl. by apply split_no_sep.
  - cbn [String.concat]. rewrite append_cons, append_empty_l.
    rewrite split_app by done. f_equal. by apply IH.
Qed.

(** ** The names of the header *)

Definition no_comma (s : string) : bool :=
  string_forall (λ c, negb (Ascii.eqb c ",")) s.

Lemma str_int_no (x : ascii) (n : Z) :
  is_int_char x = false →
  string_forall (λ c, negb (Ascii.eqb c x)) (str_int n) = true.
Proof.
  intros Hx. apply (string_forall_impl is_int_char); [|apply str_int_chars].
  intros c Hc. by rewrite (int_char_not c x).
Qed.

Lemma category_columns_no_comma (c : Z) :
  Forall (λ s, no_comma s = true) (category_columns c).
Proof.
  unfold category_columns, no_comma.
  repeat (constructor; [by rewrite string_forall_app, (str_int_no "," c)|]).
  constructor.
Qed.

Lemma header_columns_no_comma (category_ids : list Z) :
  Forall (λ s, no_comma s = true) (header_columns category_ids).
Proof.
  rewrite header_columns_eq. apply Forall_app. split.
  - by repeat constructor.
  - induction category_ids as [|c cs IH]; [constructor|].
    rewrite fmap_cons. cbn [concat]. apply Forall_app. split; [|done].
    apply category_columns_no_comma.
Qed.

Lemma index_of_None (x : string) (l : list string) : index_of x l = None → x ∉ l.
Proof.
  induction l as [|y l IH]; simpl; [by intros _ ?%elem_of_nil|].
  destruct (String.eqb_spec x y) as [->|Hne]; [done|].
  destruct (index_of x l); [done|]. intros _ [?|?]%elem_of_cons; [done|].
  by apply IH.
Qed.

Lemma elem_of_concat {A} (x : A) (ls : list (list A)) :
  x ∈ concat ls → ∃ l, x ∈ l ∧ l ∈ ls.
Proof.
  induction ls as [|l ls IH]; simpl; [by intros ?%elem_of_nil|].
  intros [Hx|Hx]%elem_of_app.
  - exists l. split; [done | apply list_elem_of_here].
  - destruct (IH Hx) as (l' & ? & ?). exists l'.
    split; [done | by apply list_elem_of_further].
Qed.

Lemma NoDup_index_of (l : list string) :
  (∀ j x, l !! j = Some x → index_of x l = Some j) → NoDup l.
Proof.
  intros Hl. apply NoDup_alt. intros i j x Hi Hj.
  apply Hl in Hi, Hj. congruence.
Qed.

Lemma NoDup_fixed_columns : NoDup fixed_columns.
Proof.
  apply NoDup_index_of. intros j x Hj.
  do 36 (destruct j as [|j]; [by injection Hj as <-|]). done.
Qed.

Lemma NoDup_category_columns (c : Z) : NoDup (category_columns c).
Proof. apply NoDup_index_of. intros j x. apply index_of_own_block. Qed.

(** Distinct category ids give distinct column names. *)
Lemma NoDup_header_columns (category_ids : list Z) :
  NoDup category_ids → NoDup (header_columns category_ids).
Proof.
  intros Hnodup. rewrite header_columns_eq. apply NoDup_app.
  split; [apply NoDup_fixed_columns|]. split.
  - intros x Hfixed (cols & Hx & (c & -> & _)%list_elem_of_fmap)%elem_of_concat.
    apply list_elem_of_lookup in Hx as [j Hj].
    by apply (index_of_None x fixed_columns (index_of_fixed_columns c j x Hj)).
  - induction Hnodup as [|c cs Hc Hcs IH]; [constructor|].
    rewrite fmap_cons. cbn [concat]. apply NoDup_app.
    split; [apply NoDup_category_columns|]. split; [|done].
    intros x Hx (cols & Hx' & (c' & -> & Hc')%list_elem_of_fmap)%elem_of_concat.
    apply list_elem_of_lookup in Hx as [j Hj].
    assert (c ≠ c') as Hne by (by intros ->).
    by apply (index_of_None x _ (index_of_other_block c c' j x Hne Hj)).
Qed.

(** ** Loading *)

Lemma mangle_dupe_cols_distinct (seen names : list string) :
  NoDup names →
  (∀ x, x ∈ names → x ∉ seen) →
  mangle_dupe_cols seen names = names.
Proof.
  intros Hnodup. revert seen.
  induction Hnodup as [|c names Hc Hnames IH]; intros seen Hseen; [done|].
  simpl. rewrite filter_none by (intros s Hs ->; by apply (Hseen c), Hs; constructor).
  simpl. f_equal. apply IH. intros x Hx [->|Hin]%elem_of_cons; [done|].
  by apply (Hseen x); [apply list_elem_of_further|].
Qed.

(** The column names of a table loaded from the header line of
    [create_header_row], for distinct category ids, are the names that
    function listed. *)
Lemma read_csv_columns_header (category_ids : list Z) :
  NoDup category_ids →
  read_csv_columns (create_header_row category_ids ",") = header_columns category_ids.
Proof.
  intros Hnodup. unfold read_csv_columns, create_header_row.
  rewrite split_join.
  - apply mangle_dupe_cols_distinct; [by apply NoDup_header_columns|].
    by intros x _ ?%elem_of_nil.
  - by rewrite header_columns_eq.
  - apply header_columns_no_comma.
Qed.

(** ** Reading the classes back *)

(** A numeral does not contain [NumInstances_]: it has no ["N"]. *)
Lemma contains_NumInstances_numeral (s : string) :
  string_forall is_int_char s = true → contains "NumInstances_" s = false.
Proof.
  induction s as [|c s IH]; [done|].
  cbn [string_forall]. rewrite andb_true_iff. intros [Hc Hs].
  cbn [contains]. rewrite (IH Hs), orb_false_r.
  cbn [String.prefix]. destruct (ascii_dec "N" c) as [<-|]; done.
Qed.

(** Of the ten columns of a category, [NumInstances_<c>] alone contains
    [NumInstances_]. *)
Lemma filter_category_columns (c : Z) :
  filter (λ name, contains "NumInstances_" name = true) (category_columns c)
  = ["NumInstances_" +:+ str_int c].
Proof.
  unfold category_columns.
  rewrite filter_cons_True
    by (simpl; rewrite append_empty_l; by destruct (str_int c)).
  f_equal.
  repeat (rewrite filter_cons_False;
          [|simpl; rewrite append_empty_l,
              (contains_NumInstances_numeral _ (str_int_chars c)); done]).
  done.
Qed.

Lemma filter_header_columns (category_ids : list Z) :
  filter (λ name, contains "NumInstances_" name = true) (header_columns category_ids)
  = (λ c, "NumInstances_" +:+ str_int c) <$> category_ids.
Proof.
  rewrite header_columns_eq, filter_app.
  change (filter _ fixed_columns) with (@nil string). simpl.
  induction category_ids as [|c cs IH]; [done|].
  rewrite !fmap_cons. cbn [concat]. rewrite filter_app, filter_category_columns.
  by rewrite IH.
Qed.

(** The piece after the underscore of [NumInstances_<c>] reads back as
    [c]. *)
Lemma parse_NumInstances (c : Z) :
  getitem (split "_" ("NumInstances_" +:+ str_int c)) 1 ≫= int_str = Ok c.
Proof.
  change ("NumInstances_" +:+ str_int c)%string
    with ("NumInstances" +:+ String "_" (str_int c))%string.
  rewrite split_app by done.
  rewrite split_no_sep by (by apply str_int_no).
  simpl. apply int_str_str_int.
Qed.

Lemma traverse_fmap_Ok {A B} (f : B → result A) (h : A → B) (l : list A) :
  (∀ x, x ∈ l → f (h x) = Ok x) → traverse f (h <$> l) = Ok l.
Proof.
  induction l as [|x l IH]; intros Hf; [done|].
  rewrite fmap_cons. cbn [traverse]. rewrite (Hf x) by apply list_elem_of_here.
  cbn [mbind result_bind].
  rewrite IH by (intros; by apply Hf, list_elem_of_further). done.
Qed.

(** The classes of a table with the columns of [create_header_row]. *)
Lemma get_classes_header_columns (path : string) (category_ids : list Z)
    (records : list (list value)) :
  get_classes {| _path := path;
                 _index := Some {| columns := header_columns category_ids;
                                   records := records |} |}
  = Ok (list_to_set category_ids).
Proof.
  unfold get_classes. simpl. rewrite filter_header_columns.
  rewrite traverse_fmap_Ok; [done|].
  intros c _. apply parse_NumInstances.
Qed.

(** The index is loaded from a file with the header line [header]. *)
Definition loaded_with_header (header : string) (self : COCOIndex) : Prop :=
  ∃ df, _index self = Some df ∧ columns df = read_csv_columns header.

(** C9, as it holds. For every list C of distinct category ids, an index
    loaded from a table whose header line is create_header_row(C) has
    get_classes equal to the set of the ids of C: the ids are read back from
    the column names. *)
Theorem get_classes_of_header (category_ids : list Z) (self : COCOIndex) :
  NoDup category_ids →
  loaded_with_header (create_header_row category_ids ",") self →
  get_classes self = Ok (list_to_set category_ids).
Proof.
  intros Hnodup (df & Hdf & Hcols).
  rewrite read_csv_columns_header in Hcols by done.
  destruct self as [path index]. simpl in Hdf. subst index.
  destruct df as [cols records]. simpl in Hcols. subst cols.
  apply get_classes_header_columns.
Qed.

Definition index_of_header (category_ids : list Z) : COCOIndex :=
  {| _path := "index.csv";
     _index := Some {| columns := read_csv_columns (create_header_row category_ids ",");
                       records := [] |} |}.

Lemma get_classes_of_header_witness :
  get_classes (index_of_header [3; 1; 2]) = Ok (list_to_set [3; 1; 2]).
Proof.
  apply (get_classes_of_header [3; 1; 2] (index_of_header [3; 1; 2])).
  - compute_done.
  - by eexists.
Defined.

(** C9 as stated fails when an id is repeated: the table loaded from the
    header of [1; 1] has a column [NumInstances_1.1], whose piece [1.1] is
    not an integer, and get_classes raises. *)
Lemma get_classes_repeated_id :
  get_classes (index_of_header [1; 1]) = Err ValueError ∧
  get_classes (index_of_header [1; 1]) ≠ Ok (list_to_set [1; 1]).
Proof. split; [by vm_compute | by vm_compute]. Qed.
